(** * VMI demo: a shallow embedding of [src/vmi_demo.c]

    The program opens a LibVMI session on a guest, walks the guest's
    circular process list three times (process, module and thread passes)
    and releases the session.  LibVMI itself is an external library: its
    calls are the fields of [vmi_instance] below, each a fallible read of a
    snapshot of the guest.  Machine integers are [Z] with the wrap-around
    written out. *)

From stdpp Require Import base decidable option numbers list strings gmap.

Local Open Scope Z_scope.

(** ** Machine integers *)

(** [addr_t] and [size_t] arithmetic (64-bit unsigned). *)
Definition wrap64 (x : Z) : Z := x mod 2 ^ 64.

(** [uint32_t] arithmetic. *)
Definition wrap32 (x : Z) : Z := x mod 2 ^ 32.

(** The 32-bit pattern [x] read as a signed [int] ([vmi_pid_t] is LibVMI's
    [int32_t]; [%d] prints an [int]). *)
Definition to_int32 (x : Z) : Z :=
  if decide (wrap32 x < 2 ^ 31) then wrap32 x else wrap32 x - 2 ^ 32.

(** ** Data of the program *)

Inductive demo_error_t : Set :=
  | DEMO_SUCCESS
  | DEMO_ERROR_INIT
  | DEMO_ERROR_PROCESS.

#[global] Instance demo_error_eq_dec : EqDecision demo_error_t.
Proof. solve_decision. Defined.

(** The numeric value of an error code (the [enum] of lines 25-30). *)
Definition demo_error_code (e : demo_error_t) : Z :=
  match e with
  | DEMO_SUCCESS => 0
  | DEMO_ERROR_INIT => -1
  | DEMO_ERROR_PROCESS => -4
  end.

Definition EXIT_SUCCESS : Z := 0.
Definition EXIT_FAILURE : Z := 1.

(** [struct ProcessInfo_t] (lines 33-38): what one line of the process
    report shows. *)
Record ProcessInfo_t : Set := {
  pid : Z;
  name : string;
  eprocess_addr : Z
}.

(** ** The LibVMI boundary

    An open session on a guest.  Every call may fail ([None] is
    [VMI_FAILURE], or the [NULL] of [vmi_read_str_va]).  The guest is a
    snapshot: the same call at the same address gives the same answer. *)
Record vmi_instance : Type := {
  (** the offsets configured for the guest, by name ([vmi_get_offset]) *)
  vmi_offsets : gmap string Z;
  (** [vmi_read_addr_ksym]: the address-sized word stored at a kernel symbol *)
  vmi_read_addr_ksym : string -> option Z;
  (** [vmi_read_32_va] at a kernel virtual address *)
  vmi_read_32_va : Z -> option Z;
  (** [vmi_read_str_va] at a kernel virtual address *)
  vmi_read_str_va : Z -> option string;
  (** [vmi_read_addr_va] at a kernel virtual address *)
  vmi_read_addr_va : Z -> option Z
}.

Definition vmi_get_offset (vmi : vmi_instance) (offset_name : string) : option Z :=
  vmi_offsets vmi !! offset_name.

(** What the program does that an observer sees: the [printf] calls, each
    with the values it formats, and the release of the session. *)
Inductive event : Type :=
  | EBanner (domain_name : string)              (* print_banner, lines 345-356 *)
  | EText (text : string)                       (* a printf of constant text *)
  | EInitFailed (domain_name : string)          (* line 51 *)
  | EInitOk (domain_name : string)              (* line 55 *)
  | EInitHelp (domain_name : string)            (* lines 377-380 *)
  | EProcess (p : ProcessInfo_t)                (* line 138 *)
  | ETotalProcesses (process_count : Z)         (* line 158 *)
  | EModuleProcess (pid : Z) (name : string)    (* line 210 *)
  | EModuleWord (test_value : Z)                (* lines 217-218 *)
  | EModulesAnalyzed (total_analyzed : Z)       (* lines 238-239 *)
  | EThreadProcess (pid : Z) (name : string)    (* line 288 *)
  | EThreadPointer (offset ptr : Z)             (* line 304 *)
  | EThreadEstimate (thread_count : Z)          (* line 312 *)
  | EThreadAccessible                           (* line 316 *)
  | EThreadsAnalyzed (total : Z)                (* lines 337-338 *)
  | EVmiDestroy.                                (* vmi_destroy, line 66 *)

#[global] Instance ProcessInfo_eq_dec : EqDecision ProcessInfo_t.
Proof. solve_decision. Defined.

#[global] Instance event_eq_dec : EqDecision event.
Proof. solve_decision. Defined.

(** ** [get_offset_safe] (lines 74-83) *)
Definition get_offset_safe (vmi : vmi_instance) (offset_name : string) : Z :=
  match vmi_get_offset vmi offset_name with
  | None => 0
  | Some offset => offset
  end.

(** ** The walk over the process list

    Why a [do ... while] loop over the list ended. *)
Inductive stop_reason : Set :=
  | CycleClosed       (* current_process == list_head, the loop condition *)
  | LinkReadFailed    (* the break of lines 150-154 *)
  | AnalysisCap.      (* total_analyzed reached 10 (line 236, module pass only) *)

#[global] Instance stop_reason_eq_dec : EqDecision stop_reason.
Proof. solve_decision. Defined.

(** The state of a loop after at most [fuel] iterations.  [walk_stop] is
    [None] while the loop is still running.  [walk_nodes] is not a variable
    of the program: it lists the node base address ([current_process] after
    line 121) of each iteration that ran, in order. *)
Record walk : Type := Walk {
  walk_stop : option stop_reason;
  walk_nodes : list Z;
  walk_out : list event;
  walk_count : Z
}.

(** Lines 123-135 (and 195-205, 273-283): the two data reads of a node.
    [None] is either [goto next_process]. *)
Definition read_process (vmi : vmi_instance) (current_process pid_offset pname_offset : Z)
  : option ProcessInfo_t :=
  match vmi_read_32_va vmi (wrap64 (current_process + pid_offset)) with
  | None => None
  | Some pid =>
      match vmi_read_str_va vmi (wrap64 (current_process + pname_offset)) with
      | None => None
      | Some proc_name =>
          Some {| pid := to_int32 pid; name := proc_name; eprocess_addr := current_process |}
      end
  end.

Section Walks.
Variable vmi : vmi_instance.
Variables list_head tasks_offset pid_offset pname_offset : Z.

(** The loop of lines 119-156, at most [fuel] iterations, entered with
    [current_process] and [process_count]. *)
Fixpoint process_loop (fuel : nat) (current_process process_count : Z) : walk :=
  match fuel with
  | O => Walk None [] [] process_count
  | S fuel =>
      let current_process := wrap64 (current_process - tasks_offset) in
      let decoded := read_process vmi current_process pid_offset pname_offset in
      let out := match decoded with Some p => [EProcess p] | None => [] end in
      let process_count :=
        match decoded with Some _ => wrap32 (process_count + 1) | None => process_count end in
      match vmi_read_addr_va vmi (wrap64 (current_process + tasks_offset)) with
      | None => Walk (Some LinkReadFailed) [current_process] out process_count
      | Some next =>
          if decide (next = list_head)
          then Walk (Some CycleClosed) [current_process] out process_count
          else
            let w := process_loop fuel next process_count in
            Walk (walk_stop w) (current_process :: walk_nodes w)
                 (out ++ walk_out w) (walk_count w)
      end
  end.
End Walks.

(** A pass returns its error code ([None]: it has not returned within the
    fuel) and what it printed. *)
Definition pass : Type := option demo_error_t * list event.

Definition process_header : list event :=
  [EText "\n============================================================\n";
   EText "PROCESS ENUMERATION\n";
   EText "============================================================\n"].

(** The walk [enumerate_processes] performs once the offsets and the list
    head are resolved. *)
Definition process_walk (vmi : vmi_instance) (list_head : Z) (fuel : nat) : walk :=
  process_loop vmi list_head (get_offset_safe vmi "win_tasks")
    (get_offset_safe vmi "win_pid") (get_offset_safe vmi "win_pname")
    fuel list_head 0.

(** ** [enumerate_processes] (lines 88-160) *)
Definition enumerate_processes (vmi : vmi_instance) (fuel : nat) : pass :=
  let tasks_offset := get_offset_safe vmi "win_tasks" in
  let pid_offset := get_offset_safe vmi "win_pid" in
  let pname_offset := get_offset_safe vmi "win_pname" in
  if decide (tasks_offset = 0 ∨ pid_offset = 0 ∨ pname_offset = 0)
  then (Some DEMO_ERROR_PROCESS,
        process_header ++ [EText "ERROR: Required process offsets not available\n"])
  else
    match vmi_read_addr_ksym vmi "PsActiveProcessHead" with
    | None =>
        (Some DEMO_ERROR_PROCESS,
         process_header ++ [EText "ERROR: Failed to find PsActiveProcessHead\n"])
    | Some list_head =>
        let w := process_walk vmi list_head fuel in
        match walk_stop w with
        | None => (None, process_header ++ walk_out w)
        | Some _ =>
            (Some DEMO_SUCCESS,
             process_header ++ walk_out w ++ [ETotalProcesses (to_int32 (walk_count w))])
        end
    end.

(** ** [enumerate_modules] (lines 165-241) *)

(** [strstr(haystack, needle) != NULL]. *)
Fixpoint strstr (haystack needle : string) : bool :=
  String.prefix needle haystack ||
  match haystack with
  | EmptyString => false
  | String _ rest => strstr rest needle
  end.

Definition module_header : list event :=
  [EText "\n============================================================\n";
   EText "MODULE ENUMERATION (Basic Memory Analysis)\n";
   EText "============================================================\n"].

Section ModuleWalk.
Variable vmi : vmi_instance.
Variables list_head tasks_offset pid_offset pname_offset : Z.

(** Lines 207-221: the analysis of one decoded node; the new
    [total_analyzed] and what is printed. *)
Definition module_analysis (p : ProcessInfo_t) (total_analyzed : Z) : Z * list event :=
  if bool_decide (100 < pid p) && (strstr (name p) ".exe" || strstr (name p) "explorer")
  then
    let test_addr := wrap64 (eprocess_addr p + 0x100) in
    (wrap32 (total_analyzed + 1),
     EModuleProcess (pid p) (name p) ::
     match vmi_read_32_va vmi test_addr with
     | Some test_value => [EModuleWord test_value]
     | None => []
     end)
  else (total_analyzed, []).

(** The loop of lines 191-236. *)
Fixpoint module_loop (fuel : nat) (current_process total_analyzed : Z) : walk :=
  match fuel with
  | O => Walk None [] [] total_analyzed
  | S fuel =>
      let current_process := wrap64 (current_process - tasks_offset) in
      let '(total_analyzed, out) :=
        match read_process vmi current_process pid_offset pname_offset with
        | Some p => module_analysis p total_analyzed
        | None => (total_analyzed, [])
        end in
      match vmi_read_addr_va vmi (wrap64 (current_process + tasks_offset)) with
      | None => Walk (Some LinkReadFailed) [current_process] out total_analyzed
      | Some next =>
          if decide (next = list_head)
          then Walk (Some CycleClosed) [current_process] out total_analyzed
          else if decide (total_analyzed < 10)
          then
            let w := module_loop fuel next total_analyzed in
            Walk (walk_stop w) (current_process :: walk_nodes w)
                 (out ++ walk_out w) (walk_count w)
          else Walk (Some AnalysisCap) [current_process] out total_analyzed
      end
  end.
End ModuleWalk.

Definition enumerate_modules (vmi : vmi_instance) (fuel : nat) : pass :=
  let tasks_offset := get_offset_safe vmi "win_tasks" in
  let pid_offset := get_offset_safe vmi "win_pid" in
  let pname_offset := get_offset_safe vmi "win_pname" in
  match vmi_read_addr_ksym vmi "PsActiveProcessHead" with
  | None =>
      (Some DEMO_ERROR_PROCESS,
       module_header ++ [EText "ERROR: Failed to find PsActiveProcessHead\n"])
  | Some list_head =>
      let w := module_loop vmi list_head tasks_offset pid_offset pname_offset
                 fuel list_head 0 in
      match walk_stop w with
      | None => (None, module_header ++ walk_out w)
      | Some _ =>
          (Some DEMO_SUCCESS,
           module_header ++ walk_out w ++ [EModulesAnalyzed (to_int32 (walk_count w))])
      end
  end.

(** ** [enumerate_threads] (lines 246-340) *)

Definition thread_header : list event :=
  [EText "\n============================================================\n";
   EText "THREAD ENUMERATION (Process-based Analysis)\n";
   EText "============================================================\n"].

(** The values the loop variable of
    [for (offset = lo; offset < hi; offset += stride)] takes, in order;
    [fuel] bounds the number of iterations. *)
Fixpoint for_range (fuel : nat) (offset hi stride : Z) : list Z :=
  match fuel with
  | O => []
  | S fuel =>
      if decide (offset < hi)
      then offset :: for_range fuel (offset + stride) hi stride
      else []
  end.

(** Line 294: [for (int offset = 0x150; offset < 0x200; offset += 8)]. *)
Definition scan_offsets : list Z :=
  for_range (Z.to_nat (0x200 - 0x150)) 0x150 0x200 8.

(** Line 299: the test on a scanned word. *)
Definition is_kernel_pointer (potential_thread_ptr : Z) : bool :=
  bool_decide (0xfffff80000000000 < potential_thread_ptr
               ∧ potential_thread_ptr < 0xffffffffffffffff).

Section ThreadWalk.
Variable vmi : vmi_instance.
Variables list_head tasks_offset pid_offset pname_offset : Z.

(** Lines 296-307: the body of the scan at one offset; the state is
    [thread_count] and the sample lines printed so far. *)
Definition thread_scan_step (current_process : Z) (st : Z * list event) (offset : Z)
  : Z * list event :=
  match vmi_read_addr_va vmi (wrap64 (current_process + offset)) with
  | Some potential_thread_ptr =>
      if is_kernel_pointer potential_thread_ptr
      then
        let thread_count := wrap32 (st.1 + 1) in
        (thread_count,
         if decide (thread_count ≤ 3)
         then st.2 ++ [EThreadPointer offset potential_thread_ptr]
         else st.2)
      else st
  | None => st
  end.

(** Lines 291-308. *)
Definition thread_scan (current_process : Z) : Z * list event :=
  foldl (thread_scan_step current_process) (0, []) scan_offsets.

(** Lines 285-320: the analysis of one decoded node. *)
Definition thread_analysis (p : ProcessInfo_t) (total_processes_analyzed : Z)
  : Z * list event :=
  if bool_decide (4 < pid p) && bool_decide (total_processes_analyzed < 10)
  then
    let '(thread_count, samples) := thread_scan (eprocess_addr p) in
    (wrap32 (total_processes_analyzed + 1),
     EThreadProcess (pid p) (name p) :: samples ++
     [if decide (0 < thread_count) then EThreadEstimate (to_int32 thread_count)
      else EThreadAccessible])
  else (total_processes_analyzed, []).

(** The loop of lines 269-335. *)
Fixpoint thread_loop (fuel : nat) (current_process total_processes_analyzed : Z) : walk :=
  match fuel with
  | O => Walk None [] [] total_processes_analyzed
  | S fuel =>
      let current_process := wrap64 (current_process - tasks_offset) in
      let '(total_processes_analyzed, out) :=
        match read_process vmi current_process pid_offset pname_offset with
        | Some p => thread_analysis p total_processes_analyzed
        | None => (total_processes_analyzed, [])
        end in
      match vmi_read_addr_va vmi (wrap64 (current_process + tasks_offset)) with
      | None => Walk (Some LinkReadFailed) [current_process] out total_processes_analyzed
      | Some next =>
          if decide (next = list_head)
          then Walk (Some CycleClosed) [current_process] out total_processes_analyzed
          else
            let w := thread_loop fuel next total_processes_analyzed in
            Walk (walk_stop w) (current_process :: walk_nodes w)
                 (out ++ walk_out w) (walk_count w)
      end
  end.
End ThreadWalk.

Definition enumerate_threads (vmi : vmi_instance) (fuel : nat) : pass :=
  let tasks_offset := get_offset_safe vmi "win_tasks" in
  let pid_offset := get_offset_safe vmi "win_pid" in
  let pname_offset := get_offset_safe vmi "win_pname" in
  match vmi_read_addr_ksym vmi "PsActiveProcessHead" with
  | None =>
      (Some DEMO_ERROR_PROCESS,
       thread_header ++ [EText "ERROR: Failed to find PsActiveProcessHead\n"])
  | Some list_head =>
      let w := thread_loop vmi list_head tasks_offset pid_offset pname_offset
                 fuel list_head 0 in
      match walk_stop w with
      | None => (None, thread_header ++ walk_out w)
      | Some _ =>
          (Some DEMO_SUCCESS,
           thread_header ++ walk_out w ++ [EThreadsAnalyzed (to_int32 (walk_count w))])
      end
  end.

(** ** The session and [main] *)

(** [initialize_vmi] (lines 46-57).  [vmi_init_complete] opens the session
    on the named domain; when it fails, [g_vmi] keeps its initial [NULL].
    The result is the error code, the new [g_vmi] and what is printed. *)
Definition initialize_vmi (vmi_init_complete : string -> option vmi_instance)
    (domain_name : string) : demo_error_t * option vmi_instance * list event :=
  match vmi_init_complete domain_name with
  | None => (DEMO_ERROR_INIT, None, [EInitFailed domain_name])
  | Some vmi => (DEMO_SUCCESS, Some vmi, [EInitOk domain_name])
  end.

(** [cleanup_vmi] (lines 62-69): the new [g_vmi] and the [vmi_destroy]
    call, if one is made. *)
Definition cleanup_vmi (g_vmi : option vmi_instance) : option vmi_instance * list event :=
  match g_vmi with
  | Some _ => (None, [EVmiDestroy])
  | None => (None, [])
  end.

(** A run of [main]: its exit status ([None]: it has not returned within
    the fuel), the final [g_vmi], and everything that happened. *)
Record run : Type := Run {
  exit_status : option Z;
  final_g_vmi : option vmi_instance;
  trace : list event
}.

(** The [cleanup:] label (lines 410-412). *)
Definition main_cleanup (g_vmi : option vmi_instance) (result : demo_error_t)
    (out : list event) : run :=
  let '(g_vmi, released) := cleanup_vmi g_vmi in
  Run (Some (if decide (result = DEMO_SUCCESS) then EXIT_SUCCESS else EXIT_FAILURE))
      g_vmi (out ++ released).

(** One stage of [main] (lines 387-392, 395-400, 403-408): run the pass;
    on an error print the stage's message and jump to [cleanup], otherwise
    go on with [next]. *)
Definition main_stage (g_vmi : option vmi_instance) (out : list event)
    (p : pass) (failed : string) (next : list event -> run) : run :=
  match p with
  | (None, o) => Run None g_vmi (out ++ o)
  | (Some result, o) =>
      if decide (result ≠ DEMO_SUCCESS)
      then main_cleanup g_vmi result (out ++ o ++ [EText failed])
      else next (out ++ o)
  end.

(** [main] (lines 361-413); [argv] includes the program name. *)
Definition main (vmi_init_complete : string -> option vmi_instance)
    (argv : list string) (fuel : nat) : run :=
  let domain_name := match argv with _ :: arg :: _ => arg | _ => "win7-vmi" end in
  let out := [EBanner domain_name] in
  let '(result, g_vmi, o) := initialize_vmi vmi_init_complete domain_name in
  let out := out ++ o in
  if decide (result ≠ DEMO_SUCCESS)
  then main_cleanup g_vmi result (out ++ [EInitHelp domain_name])
  else
    match g_vmi with
    | None => Run None g_vmi out (* not reached: a successful init sets g_vmi *)
    | Some vmi =>
        let out := out ++ [EText "\nStarting VMI introspection...\n"] in
        main_stage g_vmi out (enumerate_processes vmi fuel)
          "ERROR: Process enumeration failed\n" (fun out =>
        main_stage g_vmi out (enumerate_modules vmi fuel)
          "ERROR: Module analysis failed\n" (fun out =>
        main_stage g_vmi out (enumerate_threads vmi fuel)
          "ERROR: Thread analysis failed\n" (fun out =>
        main_cleanup g_vmi DEMO_SUCCESS out)))
    end.


(** * Vocabulary of the properties

    None of what follows is program text: these definitions name what the
    properties below talk about. *)

(** The nodes whose decode was skipped (either [goto next_process]). *)
Definition skipped_nodes (vmi : vmi_instance) (pid_offset pname_offset : Z)
    (nodes : list Z) : list Z :=
  filter (λ b, read_process vmi b pid_offset pname_offset = None) nodes.

(** The records of the nodes that decode, in order. *)
Definition decoded_records (vmi : vmi_instance) (pid_offset pname_offset : Z)
    (nodes : list Z) : list ProcessInfo_t :=
  omap (λ b, read_process vmi b pid_offset pname_offset) nodes.

(** The link-field address the process loop holds after [k] more
    iterations, if it gets that far: [None] once a link read has failed or
    has returned the list head. *)
Fixpoint link_at (vmi : vmi_instance) (list_head tasks_offset : Z)
    (k : nat) (current_process : Z) : option Z :=
  match k with
  | O => Some current_process
  | S k =>
      match vmi_read_addr_va vmi
              (wrap64 (wrap64 (current_process - tasks_offset) + tasks_offset)) with
      | Some next =>
          if decide (next = list_head) then None
          else link_at vmi list_head tasks_offset k next
      | None => None
      end
  end.

(** [links] are link-field addresses chained by the guest's link reads:
    each link field holds the address of the next one, and the read of the
    last one gives [last] ([None]: that read fails). *)
Fixpoint chain (vmi : vmi_instance) (links : list Z) (last : option Z) : Prop :=
  match links with
  | [] => False
  | l :: rest =>
      match rest with
      | [] => vmi_read_addr_va vmi l = last
      | l' :: _ => vmi_read_addr_va vmi l = Some l' ∧ chain vmi rest last
      end
  end.

(** A 64-bit address. *)
Definition is_addr (a : Z) : Prop := 0 ≤ a < 2 ^ 64.

(** A well-formed circular list: [links] are the distinct link-field
    addresses of its nodes, the first one is the list head, and the last
    node links back to the head. *)
Definition circular_list (vmi : vmi_instance) (list_head : Z) (links : list Z) : Prop :=
  head links = Some list_head ∧ NoDup links ∧ Forall is_addr links
  ∧ chain vmi links (Some list_head).

(** The error of a pass that reports a structural failure. *)
Definition offsets_unavailable : pass :=
  (Some DEMO_ERROR_PROCESS,
   process_header ++ [EText "ERROR: Required process offsets not available\n"]).

(** The domain [main] opens for a command line. *)
Definition domain_of (argv : list string) : string :=
  match argv with _ :: arg :: _ => arg | _ => "win7-vmi" end.

(** The number of [vmi_destroy] calls in a trace. *)
Definition destroy_count (tr : list event) : nat :=
  length (filter (λ e, e = EVmiDestroy) tr).

(** The nodes a thread pass analysed: its [EThreadProcess] lines. *)
Definition is_thread_process (e : event) : bool :=
  match e with EThreadProcess _ _ => true | _ => false end.

Definition analyzed_count (out : list event) : nat :=
  length (filter (λ e, is_thread_process e = true) out).

(** The report of a process pass with the given records: the header, one
    line per record, and the total. *)
Definition process_report (records : list ProcessInfo_t) : list event :=
  process_header ++ (EProcess <$> records)
  ++ [ETotalProcesses (to_int32 (Z.of_nat (length records)))].

(** What [main] has printed when it starts the process pass. *)
Definition main_prologue (domain_name : string) : list event :=
  [EBanner domain_name; EInitOk domain_name;
   EText "\nStarting VMI introspection...\n"].

(** The scanned word at [current_process + offset] is readable and passes
    the test of line 299. *)
Definition kernel_pointer_at (vmi : vmi_instance) (current_process offset : Z) : bool :=
  match vmi_read_addr_va vmi (wrap64 (current_process + offset)) with
  | Some potential_thread_ptr => is_kernel_pointer potential_thread_ptr
  | None => false
  end.

(** The session is released at most once, and a run that exits has
    cleared [g_vmi] and released the session exactly once if it had
    acquired one ([vmi_destroy] is then the last thing that happens). *)
Definition released_once (acquired : bool) (r : run) : Prop :=
  (destroy_count (trace r) ≤ 1)%nat
  ∧ (is_Some (exit_status r) →
     final_g_vmi r = None
     ∧ destroy_count (trace r) = (if acquired then 1 else 0)%nat
     ∧ (acquired = true → last (trace r) = Some EVmiDestroy)).

(** ** Guests used as examples *)

(** A guest memory given by its mapped cells. *)
Definition cells {A : Type} (l : list (Z * A)) (addr : Z) : option A :=
  (list_to_map l : gmap Z A) !! addr.

Definition ksym_head (list_head : Z) (symbol : string) : option Z :=
  if decide (symbol = "PsActiveProcessHead") then Some list_head else None.

(** The offsets of a Windows 7 x64 guest. *)
Definition win7_offsets : gmap string Z :=
  list_to_map [("win_tasks", 0x188); ("win_pid", 0x180); ("win_pname", 0x2e0)].

(** Three processes A, B, C at 0x1000, 0x2000, 0x3000, linked in a
    cycle A -> B -> C -> A. *)
Definition links_abc : list (Z * Z) :=
  [(0x1188, 0x2188); (0x2188, 0x3188); (0x3188, 0x1188)].

Definition pids_abc : list (Z * Z) := [(0x1180, 4); (0x2180, 300); (0x3180, 1200)].

Definition names_abc : list (Z * string) :=
  [(0x12e0, "System"); (0x22e0, "smss.exe"); (0x32e0, "explorer.exe")].

Definition guest_abc : vmi_instance := {|
  vmi_offsets := win7_offsets;
  vmi_read_addr_ksym := ksym_head 0x1188;
  vmi_read_32_va := cells pids_abc;
  vmi_read_str_va := cells names_abc;
  vmi_read_addr_va := cells links_abc
|}.

(** The same list, but the read of C's name fails. *)
Definition guest_abc_noname : vmi_instance := {|
  vmi_offsets := win7_offsets;
  vmi_read_addr_ksym := ksym_head 0x1188;
  vmi_read_32_va := cells pids_abc;
  vmi_read_str_va := cells [(0x12e0, "System"); (0x22e0, "smss.exe")];
  vmi_read_addr_va := cells links_abc
|}.

(** Only A and B, linked in a cycle A -> B -> A. *)
Definition guest_ab : vmi_instance := {|
  vmi_offsets := win7_offsets;
  vmi_read_addr_ksym := ksym_head 0x1188;
  vmi_read_32_va := cells pids_abc;
  vmi_read_str_va := cells names_abc;
  vmi_read_addr_va := cells [(0x1188, 0x2188); (0x2188, 0x1188)]
|}.

(** The list A -> B -> C, where the read of C's link field fails. *)
Definition guest_abc_broken : vmi_instance := {|
  vmi_offsets := win7_offsets;
  vmi_read_addr_ksym := ksym_head 0x1188;
  vmi_read_32_va := cells pids_abc;
  vmi_read_str_va := cells names_abc;
  vmi_read_addr_va := cells [(0x1188, 0x2188); (0x2188, 0x3188)]
|}.

(** A corrupted list: C links back to B, so the chain A -> B -> C -> B ...
    never returns to the head A. *)
Definition guest_stray : vmi_instance := {|
  vmi_offsets := win7_offsets;
  vmi_read_addr_ksym := ksym_head 0x1188;
  vmi_read_32_va := cells pids_abc;
  vmi_read_str_va := cells names_abc;
  vmi_read_addr_va := cells [(0x1188, 0x2188); (0x2188, 0x3188); (0x3188, 0x2188)]
|}.

(** The list of [guest_abc] on a guest whose configuration has the
    offset [win_pid] with the value 0; every data read succeeds. *)
Definition guest_zero_pid : vmi_instance := {|
  vmi_offsets :=
    list_to_map [("win_tasks", 0x188); ("win_pid", 0); ("win_pname", 0x2e0)];
  vmi_read_addr_ksym := ksym_head 0x1188;
  vmi_read_32_va := λ _, Some 300;
  vmi_read_str_va := λ _, Some "svchost.exe";
  vmi_read_addr_va := cells links_abc
|}.

(** The list of [guest_abc] on a guest whose configuration lacks
    [win_pid]; every data read succeeds. *)
Definition guest_no_pid : vmi_instance := {|
  vmi_offsets := list_to_map [("win_tasks", 0x188); ("win_pname", 0x2e0)];
  vmi_read_addr_ksym := ksym_head 0x1188;
  vmi_read_32_va := λ _, Some 300;
  vmi_read_str_va := λ _, Some "svchost.exe";
  vmi_read_addr_va := cells links_abc
|}.

(** A host on which only the domain [win7-vmi] runs, with guest [vmi]. *)
Definition host_of (vmi : vmi_instance) (domain_name : string) : option vmi_instance :=
  if decide (domain_name = "win7-vmi") then Some vmi else None.

(** ** Vocabulary of the further properties *)

(** The walks [enumerate_modules] and [enumerate_threads] perform once
    the list head is resolved. *)
Definition module_walk (vmi : vmi_instance) (list_head : Z) (fuel : nat) : walk :=
  module_loop vmi list_head (get_offset_safe vmi "win_tasks")
    (get_offset_safe vmi "win_pid") (get_offset_safe vmi "win_pname")
    fuel list_head 0.

Definition thread_walk (vmi : vmi_instance) (list_head : Z) (fuel : nat) : walk :=
  thread_loop vmi list_head (get_offset_safe vmi "win_tasks")
    (get_offset_safe vmi "win_pid") (get_offset_safe vmi "win_pname")
    fuel list_head 0.

(** [needle] occurs in [haystack]. *)
Definition is_substring (needle haystack : string) : Prop :=
  ∃ before after, haystack = before +:+ needle +:+ after.

(** The processes a module pass analysed: its [EModuleProcess] lines. *)
Definition is_module_process (e : event) : bool :=
  match e with EModuleProcess _ _ => true | _ => false end.

Definition module_count (out : list event) : nat :=
  length (filter (λ e, is_module_process e = true) out).

(** The sample line of the scan at [offset], when the word there is
    readable and passes the test of line 299. *)
Definition scan_hit (vmi : vmi_instance) (current_process offset : Z) : option event :=
  match vmi_read_addr_va vmi (wrap64 (current_process + offset)) with
  | Some potential_thread_ptr =>
      if is_kernel_pointer potential_thread_ptr
      then Some (EThreadPointer offset potential_thread_ptr)
      else None
  | None => None
  end.

(** The hits of the scan of a node, in the order of the offsets. *)
Definition scan_hits (vmi : vmi_instance) (current_process : Z) : list event :=
  omap (scan_hit vmi current_process) scan_offsets.

(** What a line of the module pass may be. *)
Definition module_line_ok (vmi : vmi_instance) (e : event) : Prop :=
  match e with
  | EText _ => True
  | EModuleProcess pid name =>
      100 < pid ∧ (is_substring ".exe" name ∨ is_substring "explorer" name)
  | EModuleWord test_value => ∃ addr, vmi_read_32_va vmi addr = Some test_value
  | EModulesAnalyzed total => 0 ≤ total ≤ 10
  | _ => False
  end.

(** What a line of the thread pass may be. *)
Definition thread_line_ok (e : event) : Prop :=
  match e with
  | EText _ => True
  | EThreadProcess pid _ => 4 < pid
  | EThreadPointer offset ptr => offset ∈ scan_offsets ∧ is_kernel_pointer ptr = true
  | EThreadEstimate thread_count => 1 ≤ thread_count ≤ 22
  | EThreadAccessible => True
  | EThreadsAnalyzed total => 0 ≤ total ≤ 10
  | _ => False
  end.

(** Twelve processes in a cycle, each with a pid above 100 and an
    [.exe] name: node k (k = 1 .. 12) is at [k * 0x1000]. *)
Definition guest_dozen : vmi_instance := {|
  vmi_offsets := win7_offsets;
  vmi_read_addr_ksym := ksym_head 0x1188;
  vmi_read_32_va := λ _, Some 300;
  vmi_read_str_va := λ _, Some "svchost.exe";
  vmi_read_addr_va := λ a,
    if decide (a mod 0x1000 = 0x188 ∧ 0x1000 ≤ a < 0xd000)
    then Some (if decide (a = 0xc188) then 0x1188 else a + 0x1000)
    else None
|}.

(** One process whose words at offsets 0x150 .. 0x1f8 are all kernel
    pointers: the word at [a] is [0xfffff80000000000 + a]. *)
Definition guest_pointers : vmi_instance := {|
  vmi_offsets := win7_offsets;
  vmi_read_addr_ksym := ksym_head 0x1188;
  vmi_read_32_va := λ _, Some 300;
  vmi_read_str_va := λ _, Some "svchost.exe";
  vmi_read_addr_va := λ a,
    if decide (a = 0x1188) then Some 0x1188 else Some (0xfffff80000000000 + a)
|}.

(** ** Vocabulary of the revised statements *)

(** A later pass has run: the title line of the module pass or of the
    thread pass has been printed. *)
Definition later_pass_ran (tr : list event) : Prop :=
  EText "MODULE ENUMERATION (Basic Memory Analysis)\n" ∈ tr
  ∨ EText "THREAD ENUMERATION (Process-based Analysis)\n" ∈ tr.

(** A line that shows something decoded or analysed from a node. *)
Definition pass_record_line (e : event) : bool :=
  match e with
  | EProcess _ | EModuleProcess _ _ | EModuleWord _
  | EThreadProcess _ _ | EThreadPointer _ _ | EThreadEstimate _
  | EThreadAccessible => true
  | _ => false
  end.

(** The three required offsets are configured, none of them as 0. *)
Definition offsets_available (vmi : vmi_instance) : Prop :=
  ∀ offset_name, offset_name ∈ ["win_tasks"; "win_pid"; "win_pname"] →
    ∃ offset, vmi_get_offset vmi offset_name = Some offset ∧ offset ≠ 0.

(** The block the thread pass prints for the node at [current_process],
    with [total] processes analysed before it, and the new total: the
    process line, the first three hits of the scan of this node, and the
    number of its hits. *)
Definition thread_block (vmi : vmi_instance) (pid_offset pname_offset : Z)
    (current_process total : Z) : Z * list event :=
  match read_process vmi current_process pid_offset pname_offset with
  | Some p =>
      if bool_decide (4 < pid p ∧ total < 10)
      then (total + 1,
            EThreadProcess (pid p) (name p)
            :: take 3 (scan_hits vmi current_process)
            ++ [match scan_hits vmi current_process with
                | [] => EThreadAccessible
                | hits => EThreadEstimate (Z.of_nat (length hits))
                end])
      else (total, [])
  | None => (total, [])
  end.

(** The blocks of a list of nodes, in order, and the final total. *)
Fixpoint thread_blocks (vmi : vmi_instance) (pid_offset pname_offset : Z)
    (nodes : list Z) (total : Z) : Z * list event :=
  match nodes with
  | [] => (total, [])
  | current_process :: nodes =>
      let here := thread_block vmi pid_offset pname_offset current_process total in
      let rest := thread_blocks vmi pid_offset pname_offset nodes here.1 in
      (rest.1, here.2 ++ rest.2)
  end.
Arguments wrap64 : simpl never.
Arguments wrap32 : simpl never.
Arguments to_int32 : simpl never.

(** * Facts about the machine arithmetic *)

Lemma wrap64_small x : 0 ≤ x < 2 ^ 64 → wrap64 x = x.
Proof. intros. unfold wrap64. by apply Z.mod_small. Qed.

Lemma wrap32_small x : 0 ≤ x < 2 ^ 32 → wrap32 x = x.
Proof. intros. unfold wrap32. by apply Z.mod_small. Qed.

(** Line 150 reads the link field back at the address line 121 came
    from. *)
Lemma wrap64_sub_add l t : 0 ≤ l < 2 ^ 64 → wrap64 (wrap64 (l - t) + t) = l.
Proof.
  intros Hl. unfold wrap64. rewrite Zplus_mod_idemp_l.
  replace (l - t + t) with l by lia. by apply Z.mod_small.
Qed.

Lemma wrap32_succ_add c k : wrap32 (wrap32 (c + 1) + k) = wrap32 (c + (1 + k)).
Proof. unfold wrap32. rewrite Zplus_mod_idemp_l. f_equal. lia. Qed.

Lemma to_int32_wrap32 x : to_int32 (wrap32 x) = to_int32 x.
Proof.
  unfold to_int32. replace (wrap32 (wrap32 x)) with (wrap32 x); [done|].
  unfold wrap32. by rewrite Zmod_mod.
Qed.

Lemma to_int32_small x : 0 ≤ x < 2 ^ 31 → to_int32 x = x.
Proof.
  intros Hx. unfold to_int32. rewrite wrap32_small by lia.
  destruct (decide (x < 2 ^ 31)); lia.
Qed.

(** * Facts about the loops *)

Lemma decoded_skipped_length vmi p n nodes :
  (length (decoded_records vmi p n nodes) + length (skipped_nodes vmi p n nodes))%nat
  = length nodes.
Proof.
  unfold decoded_records, skipped_nodes.
  induction nodes as [|b nodes IH]; [done|].
  rewrite filter_cons. cbn [omap list_omap].
  destruct (decide (read_process vmi b p n = None)) as [E|E].
  - rewrite E. cbn [length]. lia.
  - destruct (read_process vmi b p n); [cbn [length]; lia|done].
Qed.

Lemma decoded_records_addr vmi p n nodes r :
  r ∈ decoded_records vmi p n nodes →
  ∃ v s, eprocess_addr r ∈ nodes
    ∧ vmi_read_32_va vmi (wrap64 (eprocess_addr r + p)) = Some v
    ∧ vmi_read_str_va vmi (wrap64 (eprocess_addr r + n)) = Some s
    ∧ r = {| pid := to_int32 v; name := s; eprocess_addr := eprocess_addr r |}.
Proof.
  unfold decoded_records. rewrite list_elem_of_omap. intros (b & Hb & Hr).
  unfold read_process in Hr.
  destruct (vmi_read_32_va vmi (wrap64 (b + p))) as [v|] eqn:Ev; [|done].
  destruct (vmi_read_str_va vmi (wrap64 (b + n))) as [s|] eqn:Es; [|done].
  injection Hr as <-. simpl. eauto 10.
Qed.

Section ProcessLoop.
Context (vmi : vmi_instance) (list_head tasks_offset pid_offset pname_offset : Z).

Local Abbreviation loop := (process_loop vmi list_head tasks_offset pid_offset pname_offset).

(** The lines printed by the loop are the records of the visited nodes
    that decode. *)
Lemma process_loop_out fuel current count :
  walk_out (loop fuel current count)
  = EProcess <$> decoded_records vmi pid_offset pname_offset
                   (walk_nodes (loop fuel current count)).
Proof.
  unfold decoded_records.
  revert current count. induction fuel as [|fuel IH]; intros current count; [done|].
  simpl.
  destruct (vmi_read_addr_va vmi _) as [next|];
    [destruct (decide (next = list_head))|]; simpl;
    try rewrite IH;
    by destruct (read_process vmi _ pid_offset pname_offset).
Qed.

(** [process_count] counts the printed lines, modulo 2^32. *)
Lemma process_loop_count fuel current count :
  wrap32 (walk_count (loop fuel current count))
  = wrap32 (count + Z.of_nat (length (walk_out (loop fuel current count)))).
Proof.
  revert current count. induction fuel as [|fuel IH]; intros current count.
  { simpl. f_equal. lia. }
  simpl.
  destruct (vmi_read_addr_va vmi _) as [next|];
    [destruct (decide (next = list_head))|]; simpl;
    try rewrite IH;
    destruct (read_process vmi _ pid_offset pname_offset); simpl;
    rewrite ?Nat2Z.inj_succ, ?wrap32_succ_add;
    unfold wrap32; rewrite ?Zmod_mod; f_equal; lia.
Qed.

(** The loop runs one iteration per unit of fuel until it stops. *)
Lemma process_loop_length fuel current count :
  (length (walk_nodes (loop fuel current count)) ≤ fuel)%nat
  ∧ (walk_stop (loop fuel current count) = None →
     length (walk_nodes (loop fuel current count)) = fuel).
Proof.
  revert current count. induction fuel as [|fuel IH]; intros current count; [done|].
  simpl.
  destruct (vmi_read_addr_va vmi _) as [next|];
    [destruct (decide (next = list_head))|]; simpl; try (split; [lia|done]).
  destruct (IH next
    (match read_process vmi (wrap64 (current - tasks_offset)) pid_offset pname_offset with
     | Some _ => wrap32 (count + 1) | None => count end)) as [H1 H2].
  split; [lia|]. intros Hs. by rewrite H2.
Qed.

(** The process loop never stops on the analysis cap of the module pass. *)
Lemma process_loop_stop fuel current count :
  walk_stop (loop fuel current count) ≠ Some AnalysisCap.
Proof.
  revert current count. induction fuel as [|fuel IH]; intros current count; [done|].
  simpl.
  destruct (vmi_read_addr_va vmi _) as [next|];
    [destruct (decide (next = list_head))|]; simpl; first [done | apply IH].
Qed.

Lemma process_loop_running fuel current count :
  walk_stop (loop fuel current count) = None ↔ is_Some (link_at vmi list_head tasks_offset fuel current).
Proof.
  revert current count. induction fuel as [|fuel IH]; intros current count.
  { simpl. split; eauto. }
  simpl.
  destruct (vmi_read_addr_va vmi _) as [next|];
    [destruct (decide (next = list_head))|]; simpl;
    try (split; [done|by intros [? ?]]).
  apply IH.
Qed.
End ProcessLoop.

(** Two sessions whose link reads agree walk the same nodes and stop for
    the same reason, whatever their data reads do. *)
Lemma process_loop_links vmi vmi' list_head t p n p' n' fuel current count count' :
  (∀ a, vmi_read_addr_va vmi a = vmi_read_addr_va vmi' a) →
  walk_stop (process_loop vmi list_head t p n fuel current count)
  = walk_stop (process_loop vmi' list_head t p' n' fuel current count')
  ∧ walk_nodes (process_loop vmi list_head t p n fuel current count)
  = walk_nodes (process_loop vmi' list_head t p' n' fuel current count').
Proof.
  intros Hlinks. revert current count count'.
  induction fuel as [|fuel IH]; intros current count count'; [done|].
  simpl. rewrite <- Hlinks.
  destruct (vmi_read_addr_va vmi _) as [next|];
    [destruct (decide (next = list_head))|]; simpl; try done.
  edestruct IH as [-> ->]. done.
Qed.

(** Along a chain of link fields that does not pass through the list head
    again, the loop visits one node per link and stops at the end of the
    chain: by cycle closure when the last link is the head, by the failed
    read otherwise. *)
Lemma process_loop_chain vmi list_head t p n last rest :
  ∀ l fuel count,
  chain vmi (l :: rest) last →
  last = None ∨ last = Some list_head →
  Forall is_addr (l :: rest) →
  list_head ∉ rest →
  (length (l :: rest) ≤ fuel)%nat →
  walk_stop (process_loop vmi list_head t p n fuel l count)
  = Some (match last with Some _ => CycleClosed | None => LinkReadFailed end)
  ∧ walk_nodes (process_loop vmi list_head t p n fuel l count)
  = (λ a, wrap64 (a - t)) <$> l :: rest.
Proof.
  induction rest as [|l' rest IH]; intros l fuel count Hchain Hlast Haddr Hhead Hlen;
    (destruct fuel as [|fuel]; [simpl in Hlen; lia|]);
    pose proof (Forall_inv Haddr) as Hl; unfold is_addr in Hl.
  - simpl in Hchain. simpl. rewrite wrap64_sub_add by done. rewrite Hchain.
    destruct Hlast as [-> | ->]; [done|]. by rewrite decide_True.
  - destruct Hchain as [Hread Hchain]. simpl.
    rewrite wrap64_sub_add by done. rewrite Hread.
    rewrite decide_False by (intros ->; apply Hhead; left).
    simpl.
    edestruct (IH l' fuel) as [-> ->]; try done.
    + by apply Forall_inv_tail in Haddr.
    + intros Hin. apply Hhead. by right.
    + simpl in *. lia.
Qed.

(** Distinct link fields belong to distinct nodes. *)
Lemma node_bases_NoDup t links :
  Forall is_addr links → NoDup links → NoDup ((λ a, wrap64 (a - t)) <$> links).
Proof.
  intros Haddr Hnd. apply NoDup_fmap_2_strong; [|done].
  intros a b Ha Hb Heq.
  rewrite Forall_forall in Haddr.
  rewrite <- (wrap64_sub_add a t), <- (wrap64_sub_add b t) by by apply Haddr.
  by rewrite Heq.
Qed.

(** What [enumerate_processes] returns once the offsets and the head are
    resolved. *)
Lemma enumerate_processes_walk vmi list_head fuel :
  get_offset_safe vmi "win_tasks" ≠ 0 →
  get_offset_safe vmi "win_pid" ≠ 0 →
  get_offset_safe vmi "win_pname" ≠ 0 →
  vmi_read_addr_ksym vmi "PsActiveProcessHead" = Some list_head →
  enumerate_processes vmi fuel
  = match walk_stop (process_walk vmi list_head fuel) with
    | None => (None, process_header ++ walk_out (process_walk vmi list_head fuel))
    | Some _ =>
        (Some DEMO_SUCCESS,
         process_header ++ walk_out (process_walk vmi list_head fuel)
         ++ [ETotalProcesses (to_int32 (walk_count (process_walk vmi list_head fuel)))])
    end.
Proof.
  intros Ht Hp Hn Hhead. unfold enumerate_processes.
  rewrite decide_False by tauto. by rewrite Hhead.
Qed.

(** The total printed on line 158 is the number of record lines, as a
    32-bit [int]. *)
Lemma process_walk_total vmi list_head fuel :
  to_int32 (walk_count (process_walk vmi list_head fuel))
  = to_int32 (Z.of_nat (length (walk_out (process_walk vmi list_head fuel)))).
Proof.
  unfold process_walk.
  rewrite <- to_int32_wrap32, process_loop_count, to_int32_wrap32.
  by rewrite Z.add_0_l.
Qed.

Lemma get_offset_safe_Some vmi offset_name v :
  vmi_get_offset vmi offset_name = Some v → get_offset_safe vmi offset_name = v.
Proof. unfold get_offset_safe. by intros ->. Qed.

(** When every node decodes, there is one record per node. *)
Lemma decoded_records_all vmi p n nodes :
  Forall (λ b, is_Some (vmi_read_32_va vmi (wrap64 (b + p)))
             ∧ is_Some (vmi_read_str_va vmi (wrap64 (b + n)))) nodes →
  eprocess_addr <$> decoded_records vmi p n nodes = nodes.
Proof.
  unfold decoded_records.
  induction 1 as [|b nodes [[v Hv] [s Hs]] _ IH]; [done|].
  cbn [omap list_omap]. unfold read_process at 1. rewrite Hv, Hs.
  cbn [fmap list_fmap eprocess_addr]. f_equal. apply IH.
Qed.

(** * The claims *)

(** Closed goals about the example guests are settled by evaluation. *)
Ltac evaluate :=
  idtac;
  first [ vm_compute; reflexivity
        | vm_compute; intros ?; discriminate
        | vm_compute; eauto; fail ].

(** ** C1: no iteration ceiling *)

Lemma stray_links_continue fuel :
  is_Some (link_at guest_stray 0x1188 0x188 fuel 0x2188)
  ∧ is_Some (link_at guest_stray 0x1188 0x188 fuel 0x3188).
Proof.
  induction fuel as [|fuel [IHb IHc]]; [split; eauto|].
  split; simpl; rewrite wrap64_sub_add by lia.
  - replace (cells _ 0x2188) with (Some 0x3188) by (vm_compute; reflexivity).
    by rewrite decide_False.
  - replace (cells _ 0x3188) with (Some 0x2188) by (vm_compute; reflexivity).
    by rewrite decide_False.
Qed.

Lemma stray_chain_never_closes fuel :
  is_Some (link_at guest_stray 0x1188 0x188 fuel 0x1188).
Proof.
  destruct fuel as [|fuel]; [eauto|].
  simpl. rewrite wrap64_sub_add by lia.
  replace (cells _ 0x1188) with (Some 0x2188) by (vm_compute; reflexivity).
  rewrite decide_False by done. apply stray_links_continue.
Qed.

(** C1, counterexample: on the corrupted list A -> B -> C -> B of
    [guest_stray] the offsets and the head resolve and no read of a link
    field fails, yet [enumerate_processes] never returns and flags nothing:
    after any number of iterations the loop is still running and has
    visited that many nodes, so no fixed bound stops it. *)
Lemma stray_walk_unbounded :
  (∀ fuel, fst (enumerate_processes guest_stray fuel) = None)
  ∧ (∀ fuel, length (walk_nodes (process_walk guest_stray 0x1188 fuel)) = fuel).
Proof.
  assert (∀ fuel, walk_stop (process_walk guest_stray 0x1188 fuel) = None) as Hrun.
  { intros fuel. unfold process_walk. apply process_loop_running.
    replace (get_offset_safe guest_stray "win_tasks") with 0x188
      by (vm_compute; reflexivity).
    apply stray_chain_never_closes. }
  split; intros fuel.
  - rewrite (enumerate_processes_walk guest_stray 0x1188) by evaluate.
    by rewrite Hrun.
  - apply process_loop_length, Hrun.
Qed.

(** C1, as the code has it: [enumerate_processes] has no iteration
    ceiling and no corruption flag.  Once the offsets and the head are
    resolved, the pass has not returned after [fuel] iterations exactly
    when no read of a link field has failed or returned the list head so
    far, and it has then visited exactly [fuel] nodes, whatever [fuel] is;
    the loop stops for one of these two reasons only. *)
Theorem enumerate_processes_no_ceiling vmi list_head fuel :
  get_offset_safe vmi "win_tasks" ≠ 0 →
  get_offset_safe vmi "win_pid" ≠ 0 →
  get_offset_safe vmi "win_pname" ≠ 0 →
  vmi_read_addr_ksym vmi "PsActiveProcessHead" = Some list_head →
  (fst (enumerate_processes vmi fuel) = None
   ↔ is_Some (link_at vmi list_head (get_offset_safe vmi "win_tasks") fuel list_head))
  ∧ (fst (enumerate_processes vmi fuel) = None →
     length (walk_nodes (process_walk vmi list_head fuel)) = fuel)
  ∧ (∀ r, walk_stop (process_walk vmi list_head fuel) = Some r →
     r = CycleClosed ∨ r = LinkReadFailed).
Proof.
  intros Ht Hp Hn Hhead.
  assert (fst (enumerate_processes vmi fuel) = None
          ↔ walk_stop (process_walk vmi list_head fuel) = None) as Hret.
  { rewrite (enumerate_processes_walk vmi list_head) by done.
    by destruct (walk_stop _). }
  split_and!.
  - rewrite Hret. apply process_loop_running.
  - rewrite Hret. apply process_loop_length.
  - intros r Hr.
    pose proof (process_loop_stop vmi list_head (get_offset_safe vmi "win_tasks")
                  (get_offset_safe vmi "win_pid") (get_offset_safe vmi "win_pname")
                  fuel list_head 0) as Hcap.
    fold (process_walk vmi list_head fuel) in Hcap.
    rewrite Hr in Hcap. destruct r; auto. done.
Qed.

(** On the corrupted list of [guest_stray] the pass is still running
    after 1000 iterations, with 1000 nodes visited. *)
Lemma enumerate_processes_no_ceiling_stray :
  fst (enumerate_processes guest_stray 1000) = None
  ∧ length (walk_nodes (process_walk guest_stray 0x1188 1000)) = 1000%nat.
Proof.
  destruct (enumerate_processes_no_ceiling guest_stray 0x1188 1000)
    as (Hrunning & Hlength & _).
  - evaluate.
  - evaluate.
  - evaluate.
  - reflexivity.
  - assert (fst (enumerate_processes guest_stray 1000) = None) as Hnone
      by (apply Hrunning, stray_chain_never_closes).
    split; [exact Hnone|exact (Hlength Hnone)].
Defined.

(** ** C2: a full cycle *)

(** C2, counterexample: on [guest_zero_pid] the three offsets are present
    in the configuration, the list A -> B -> C -> A is well formed and every
    read succeeds, but the offset [win_pid] has the value 0:
    [enumerate_processes] reports the offsets as unavailable and yields no
    record. *)
Lemma zero_offset_yields_no_record :
  vmi_get_offset guest_zero_pid "win_tasks" = Some 0x188
  ∧ vmi_get_offset guest_zero_pid "win_pid" = Some 0
  ∧ vmi_get_offset guest_zero_pid "win_pname" = Some 0x2e0
  ∧ vmi_read_addr_ksym guest_zero_pid "PsActiveProcessHead" = Some 0x1188
  ∧ circular_list guest_zero_pid 0x1188 [0x1188; 0x2188; 0x3188]
  ∧ (∀ a, is_Some (vmi_read_32_va guest_zero_pid a)
          ∧ is_Some (vmi_read_str_va guest_zero_pid a))
  ∧ (∀ fuel, enumerate_processes guest_zero_pid fuel = offsets_unavailable).
Proof.
  split_and!.
  - reflexivity.
  - reflexivity.
  - reflexivity.
  - reflexivity.
  - unfold circular_list. split_and!.
    + reflexivity.
    + apply NoDup_ListNoDup. repeat constructor; simpl; intuition lia.
    + repeat constructor; unfold is_addr; lia.
    + simpl. split_and!; reflexivity.
  - intros a. simpl. eauto.
  - intros fuel. reflexivity.
Qed.

(** C2, as the code has it: when the three offsets are present and not
    zero, the head resolves, the list is a well-formed circular list of N
    nodes and every pid and name read succeeds, then with fuel for N
    iterations [enumerate_processes] visits exactly the N distinct node
    bases (link-field address minus the tasks offset), prints the N
    records in list order followed by the total, and the loop ends because
    the link read returned the list head. *)
Theorem enumerate_processes_full_cycle vmi list_head links t p n fuel :
  vmi_get_offset vmi "win_tasks" = Some t → t ≠ 0 →
  vmi_get_offset vmi "win_pid" = Some p → p ≠ 0 →
  vmi_get_offset vmi "win_pname" = Some n → n ≠ 0 →
  vmi_read_addr_ksym vmi "PsActiveProcessHead" = Some list_head →
  circular_list vmi list_head links →
  Forall (λ b, is_Some (vmi_read_32_va vmi (wrap64 (b + p)))
             ∧ is_Some (vmi_read_str_va vmi (wrap64 (b + n))))
         ((λ l, wrap64 (l - t)) <$> links) →
  (length links ≤ fuel)%nat →
  walk_nodes (process_walk vmi list_head fuel) = (λ l, wrap64 (l - t)) <$> links
  ∧ NoDup ((λ l, wrap64 (l - t)) <$> links)
  ∧ length (walk_nodes (process_walk vmi list_head fuel)) = length links
  ∧ eprocess_addr <$> decoded_records vmi p n ((λ l, wrap64 (l - t)) <$> links)
    = (λ l, wrap64 (l - t)) <$> links
  ∧ walk_stop (process_walk vmi list_head fuel) = Some CycleClosed
  ∧ enumerate_processes vmi fuel
    = (Some DEMO_SUCCESS,
       process_header
       ++ (EProcess <$> decoded_records vmi p n ((λ l, wrap64 (l - t)) <$> links))
       ++ [ETotalProcesses (to_int32 (Z.of_nat (length links)))]).
Proof.
  intros Ht Ht0 Hp Hp0 Hn Hn0 Hhead (Hfirst & Hnd & Haddr & Hchain) Hreads Hfuel.
  apply get_offset_safe_Some in Ht as Ht', Hp as Hp', Hn as Hn'.
  destruct links as [|l rest]; [done|]. injection Hfirst as ->.
  assert (list_head ∉ rest) as Hnotin by (by apply NoDup_cons_1_1).
  destruct (process_loop_chain vmi list_head t p n (Some list_head) rest
              list_head fuel 0 Hchain (or_intror eq_refl) Haddr Hnotin Hfuel)
    as [Hstop Hnodes].
  assert (process_walk vmi list_head fuel
          = process_loop vmi list_head t p n fuel list_head 0) as Hwalk
    by (unfold process_walk; by rewrite Ht', Hp', Hn').
  pose proof (decoded_records_all vmi p n _ Hreads) as Hrec.
  split_and!.
  - by rewrite Hwalk.
  - by apply node_bases_NoDup.
  - by rewrite Hwalk, Hnodes, length_fmap.
  - done.
  - by rewrite Hwalk.
  - rewrite (enumerate_processes_walk vmi list_head) by congruence.
    rewrite process_walk_total, Hwalk, Hstop, process_loop_out, Hnodes.
    do 4 f_equal.
    rewrite length_fmap.
    rewrite <- (length_fmap eprocess_addr), Hrec. by rewrite length_fmap.
Qed.

(** The list A -> B -> C -> A of [guest_abc]: three records in the order
    A, B, C, and the loop ends by cycle closure. *)
Lemma enumerate_processes_full_cycle_abc :
  walk_nodes (process_walk guest_abc 0x1188 3) = [0x1000; 0x2000; 0x3000]
  ∧ walk_stop (process_walk guest_abc 0x1188 3) = Some CycleClosed
  ∧ enumerate_processes guest_abc 3
    = (Some DEMO_SUCCESS,
       process_header
       ++ [EProcess {| pid := 4; name := "System"; eprocess_addr := 0x1000 |};
           EProcess {| pid := 300; name := "smss.exe"; eprocess_addr := 0x2000 |};
           EProcess {| pid := 1200; name := "explorer.exe"; eprocess_addr := 0x3000 |}]
       ++ [ETotalProcesses 3]).
Proof.
  pose proof (enumerate_processes_full_cycle guest_abc 0x1188
                [0x1188; 0x2188; 0x3188] 0x188 0x180 0x2e0 3) as H.
  destruct H as (Hnodes & _ & _ & _ & Hstop & Hout).
  - reflexivity.
  - lia.
  - reflexivity.
  - lia.
  - reflexivity.
  - lia.
  - reflexivity.
  - unfold circular_list. split_and!.
    + reflexivity.
    + apply NoDup_ListNoDup. repeat constructor; simpl; intuition lia.
    + repeat constructor; unfold is_addr; lia.
    + simpl. split_and!; reflexivity.
  - repeat (apply Forall_cons_2; [split; vm_compute; eauto|]). apply Forall_nil_2.
  - simpl. lia.
  - split; [exact Hnodes|]. split; [exact Hstop|]. exact Hout.
Defined.

(** ** C3: a failed link read ends the walk *)

(** A loop that stopped on a failed link read did so at the link field of
    the last node it visited. *)
Lemma process_loop_link_failed vmi list_head t p n fuel current count :
  walk_stop (process_loop vmi list_head t p n fuel current count) = Some LinkReadFailed →
  ∃ b, last (walk_nodes (process_loop vmi list_head t p n fuel current count)) = Some b
       ∧ vmi_read_addr_va vmi (wrap64 (b + t)) = None.
Proof.
  revert current count. induction fuel as [|fuel IH]; intros current count; [done|].
  simpl.
  destruct (vmi_read_addr_va vmi _) as [next|] eqn:Hread;
    [destruct (decide (next = list_head))|]; simpl; try done.
  - intros Hstop. destruct (IH _ _ Hstop) as (b & Hlast & Hb).
    exists b. split; [|done].
    by rewrite last_cons, Hlast.
  - intros _. eauto.
Qed.

(** What [enumerate_processes] prints along a chain of link fields that
    ends at a failed link read or back at the head: the report of the
    records of the chain's nodes that decode, whatever the pid and name
    reads of the other nodes do. *)
Lemma enumerate_processes_chain vmi list_head links last fuel :
  get_offset_safe vmi "win_tasks" ≠ 0 →
  get_offset_safe vmi "win_pid" ≠ 0 →
  get_offset_safe vmi "win_pname" ≠ 0 →
  vmi_read_addr_ksym vmi "PsActiveProcessHead" = Some list_head →
  head links = Some list_head →
  list_head ∉ tail links →
  Forall is_addr links →
  chain vmi links last →
  last = None ∨ last = Some list_head →
  (length links ≤ fuel)%nat →
  enumerate_processes vmi fuel
  = (Some DEMO_SUCCESS,
     process_report
       (decoded_records vmi (get_offset_safe vmi "win_pid")
          (get_offset_safe vmi "win_pname")
          ((λ l, wrap64 (l - get_offset_safe vmi "win_tasks")) <$> links))).
Proof.
  intros Ht Hp Hn Hhead Hfirst Hnotin Haddr Hchain Hlast Hfuel.
  destruct links as [|l rest]; [done|]. injection Hfirst as ->. simpl in Hnotin.
  destruct (process_loop_chain vmi list_head (get_offset_safe vmi "win_tasks")
              (get_offset_safe vmi "win_pid") (get_offset_safe vmi "win_pname")
              last rest list_head fuel 0 Hchain Hlast Haddr Hnotin Hfuel)
    as [Hstop Hnodes].
  rewrite (enumerate_processes_walk vmi list_head) by done.
  rewrite process_walk_total. unfold process_walk.
  rewrite Hstop, process_loop_out, Hnodes. unfold process_report.
  by rewrite !length_fmap.
Qed.

Lemma process_report_records r records :
  EProcess r ∈ process_report records ↔ r ∈ records.
Proof.
  unfold process_report, process_header.
  rewrite !elem_of_app, !elem_of_cons, !elem_of_nil, list_elem_of_fmap. split.
  - intros [[?|[?|[?|?]]]|[(r' & [= <-] & ?)|[?|?]]]; done.
  - intros Hr. right; left. by exists r.
Qed.

(** C3: when the traversal runs (offsets not zero, head resolved) along a
    chain of k nodes and the read of the k-th node's link field fails,
    [enumerate_processes] visits exactly those k nodes and stops there: it
    still returns [DEMO_SUCCESS], and what it prints is the report of the
    records of these k nodes (all k of them, in order, when their pid and
    name reads succeed).  No other read failure stops the traversal: a
    session with the same link reads prints the report over the same k
    nodes whatever its pid and name reads do, and the loop stops on a read
    failure only at a failed link read. *)
Theorem link_read_failure_stops_walk vmi list_head links fuel :
  get_offset_safe vmi "win_tasks" ≠ 0 →
  get_offset_safe vmi "win_pid" ≠ 0 →
  get_offset_safe vmi "win_pname" ≠ 0 →
  vmi_read_addr_ksym vmi "PsActiveProcessHead" = Some list_head →
  head links = Some list_head →
  list_head ∉ tail links →
  Forall is_addr links →
  chain vmi links None →
  (length links ≤ fuel)%nat →
  enumerate_processes vmi fuel
  = (Some DEMO_SUCCESS,
     process_report
       (decoded_records vmi (get_offset_safe vmi "win_pid")
          (get_offset_safe vmi "win_pname")
          ((λ l, wrap64 (l - get_offset_safe vmi "win_tasks")) <$> links)))
  ∧ (Forall (λ b, is_Some (vmi_read_32_va vmi (wrap64 (b + get_offset_safe vmi "win_pid")))
                ∧ is_Some (vmi_read_str_va vmi
                             (wrap64 (b + get_offset_safe vmi "win_pname"))))
            ((λ l, wrap64 (l - get_offset_safe vmi "win_tasks")) <$> links) →
     eprocess_addr <$> decoded_records vmi (get_offset_safe vmi "win_pid")
                         (get_offset_safe vmi "win_pname")
                         ((λ l, wrap64 (l - get_offset_safe vmi "win_tasks")) <$> links)
     = (λ l, wrap64 (l - get_offset_safe vmi "win_tasks")) <$> links)
  ∧ (∀ vmi',
       vmi_offsets vmi' = vmi_offsets vmi →
       vmi_read_addr_ksym vmi' "PsActiveProcessHead" = Some list_head →
       (∀ a, vmi_read_addr_va vmi' a = vmi_read_addr_va vmi a) →
       enumerate_processes vmi' fuel
       = (Some DEMO_SUCCESS,
          process_report
            (decoded_records vmi' (get_offset_safe vmi "win_pid")
               (get_offset_safe vmi "win_pname")
               ((λ l, wrap64 (l - get_offset_safe vmi "win_tasks")) <$> links))))
  ∧ walk_stop (process_walk vmi list_head fuel) = Some LinkReadFailed
  ∧ walk_nodes (process_walk vmi list_head fuel)
    = (λ l, wrap64 (l - get_offset_safe vmi "win_tasks")) <$> links
  ∧ length (walk_nodes (process_walk vmi list_head fuel)) = length links
  ∧ (∀ fuel',
       walk_stop (process_walk vmi list_head fuel') = Some LinkReadFailed →
       ∃ b, last (walk_nodes (process_walk vmi list_head fuel')) = Some b
            ∧ vmi_read_addr_va vmi (wrap64 (b + get_offset_safe vmi "win_tasks")) = None)
  ∧ (∀ vmi' fuel',
       vmi_offsets vmi' = vmi_offsets vmi →
       (∀ a, vmi_read_addr_va vmi' a = vmi_read_addr_va vmi a) →
       walk_stop (process_walk vmi' list_head fuel')
       = walk_stop (process_walk vmi list_head fuel')
       ∧ walk_nodes (process_walk vmi' list_head fuel')
         = walk_nodes (process_walk vmi list_head fuel')).
Proof.
  intros Ht Hp Hn Hhead Hfirst Hnotin Haddr Hchain Hfuel.
  pose proof (enumerate_processes_chain vmi list_head links None fuel
                Ht Hp Hn Hhead Hfirst Hnotin Haddr Hchain (or_introl eq_refl) Hfuel)
    as Hout.
  assert (∀ vmi' name, vmi_offsets vmi' = vmi_offsets vmi →
                       get_offset_safe vmi' name = get_offset_safe vmi name) as Hoffs.
  { intros vmi' name Hoff. unfold get_offset_safe, vmi_get_offset. by rewrite Hoff. }
  assert (∀ vmi', (∀ a, vmi_read_addr_va vmi' a = vmi_read_addr_va vmi a) →
                  chain vmi' links None) as Hchain'.
  { intros vmi' Hlinks. clear -Hchain Hlinks.
    induction links as [|l [|l' rest] IH]; [done|..]; simpl in *.
    - by rewrite Hlinks.
    - destruct Hchain as [Hl Hrest]. rewrite Hlinks. split; [done|by apply IH]. }
  destruct links as [|l rest]; [done|].
  injection Hfirst as ->. simpl in Hnotin.
  destruct (process_loop_chain vmi list_head (get_offset_safe vmi "win_tasks")
              (get_offset_safe vmi "win_pid") (get_offset_safe vmi "win_pname")
              None rest list_head fuel 0 Hchain (or_introl eq_refl) Haddr Hnotin Hfuel)
    as [Hstop Hnodes].
  fold (process_walk vmi list_head fuel) in Hstop, Hnodes.
  split_and!; try done.
  - apply decoded_records_all.
  - intros vmi' Hoff Hhead' Hlinks.
    rewrite <- !(Hoffs vmi' _ Hoff).
    apply (enumerate_processes_chain vmi' list_head (list_head :: rest) None fuel);
      rewrite ?(Hoffs vmi' _ Hoff); try done.
    + by apply Hchain'.
    + by left.
  - by rewrite Hnodes, length_fmap.
  - intros fuel'. apply process_loop_link_failed.
  - intros vmi' fuel' Hoff Hlinks. unfold process_walk.
    rewrite !(Hoffs vmi' _ Hoff). by apply process_loop_links.
Qed.

(** On [guest_abc_broken] the read of C's link field fails: the pass
    prints the records of A, B and C, the total 3, and returns
    [DEMO_SUCCESS]. *)
Lemma link_read_failure_stops_walk_abc :
  enumerate_processes guest_abc_broken 3
  = (Some DEMO_SUCCESS,
     process_header
     ++ [EProcess {| pid := 4; name := "System"; eprocess_addr := 0x1000 |};
         EProcess {| pid := 300; name := "smss.exe"; eprocess_addr := 0x2000 |};
         EProcess {| pid := 1200; name := "explorer.exe"; eprocess_addr := 0x3000 |};
         ETotalProcesses 3])
  ∧ walk_stop (process_walk guest_abc_broken 0x1188 3) = Some LinkReadFailed
  ∧ walk_nodes (process_walk guest_abc_broken 0x1188 3) = [0x1000; 0x2000; 0x3000].
Proof.
  pose proof (link_read_failure_stops_walk guest_abc_broken 0x1188
                [0x1188; 0x2188; 0x3188] 3) as H.
  destruct H as (Hout & _ & _ & Hstop & Hnodes & _).
  - evaluate.
  - evaluate.
  - evaluate.
  - reflexivity.
  - reflexivity.
  - simpl. rewrite !elem_of_cons, elem_of_nil. lia.
  - repeat constructor; unfold is_addr; lia.
  - simpl. split_and!; reflexivity.
  - simpl. lia.
  - split; [exact Hout|]. split; [exact Hstop|exact Hnodes].
Defined.

(** ** C4: a failed data read skips the node *)

Lemma read_process_None vmi b p n :
  read_process vmi b p n = None
  ↔ vmi_read_32_va vmi (wrap64 (b + p)) = None
    ∨ vmi_read_str_va vmi (wrap64 (b + n)) = None.
Proof.
  unfold read_process.
  destruct (vmi_read_32_va vmi _); [|by intuition].
  destruct (vmi_read_str_va vmi _); [|by intuition].
  split; [done|]. by intros [|].
Qed.

(** C4: on a well-formed circular list of N nodes (offsets not zero, head
    resolved), whatever the pid and name reads do, [enumerate_processes]
    goes round the whole list and returns [DEMO_SUCCESS].  A node whose pid
    read or name read fails is skipped: it prints no line.  A record line
    is printed only for a node of the list whose two reads both succeeded,
    and it carries both values.  The lines printed are those of the nodes
    that decode, in list order, so their number is N minus the number of
    skipped nodes. *)
Theorem data_read_failure_skips_node vmi list_head links fuel :
  get_offset_safe vmi "win_tasks" ≠ 0 →
  get_offset_safe vmi "win_pid" ≠ 0 →
  get_offset_safe vmi "win_pname" ≠ 0 →
  vmi_read_addr_ksym vmi "PsActiveProcessHead" = Some list_head →
  circular_list vmi list_head links →
  (length links ≤ fuel)%nat →
  enumerate_processes vmi fuel
  = (Some DEMO_SUCCESS,
     process_report
       (decoded_records vmi (get_offset_safe vmi "win_pid")
          (get_offset_safe vmi "win_pname")
          ((λ l, wrap64 (l - get_offset_safe vmi "win_tasks")) <$> links)))
  ∧ length (decoded_records vmi (get_offset_safe vmi "win_pid")
              (get_offset_safe vmi "win_pname")
              ((λ l, wrap64 (l - get_offset_safe vmi "win_tasks")) <$> links))
    = (length links
       - length (skipped_nodes vmi (get_offset_safe vmi "win_pid")
                   (get_offset_safe vmi "win_pname")
                   ((λ l, wrap64 (l - get_offset_safe vmi "win_tasks")) <$> links)))%nat
  ∧ (∀ b, b ∈ skipped_nodes vmi (get_offset_safe vmi "win_pid")
                (get_offset_safe vmi "win_pname")
                ((λ l, wrap64 (l - get_offset_safe vmi "win_tasks")) <$> links)
          ↔ b ∈ (λ l, wrap64 (l - get_offset_safe vmi "win_tasks")) <$> links
            ∧ (vmi_read_32_va vmi (wrap64 (b + get_offset_safe vmi "win_pid")) = None
               ∨ vmi_read_str_va vmi (wrap64 (b + get_offset_safe vmi "win_pname")) = None))
  ∧ (∀ r, EProcess r ∈ (enumerate_processes vmi fuel).2 →
       ∃ v s,
         eprocess_addr r ∈ (λ l, wrap64 (l - get_offset_safe vmi "win_tasks")) <$> links
         ∧ vmi_read_32_va vmi (wrap64 (eprocess_addr r + get_offset_safe vmi "win_pid"))
           = Some v
         ∧ vmi_read_str_va vmi (wrap64 (eprocess_addr r + get_offset_safe vmi "win_pname"))
           = Some s
         ∧ r = {| pid := to_int32 v; name := s; eprocess_addr := eprocess_addr r |})
  ∧ (∀ l v s,
       l ∈ links →
       vmi_read_32_va vmi
         (wrap64 (wrap64 (l - get_offset_safe vmi "win_tasks")
                  + get_offset_safe vmi "win_pid")) = Some v →
       vmi_read_str_va vmi
         (wrap64 (wrap64 (l - get_offset_safe vmi "win_tasks")
                  + get_offset_safe vmi "win_pname")) = Some s →
       EProcess {| pid := to_int32 v; name := s;
                   eprocess_addr := wrap64 (l - get_offset_safe vmi "win_tasks") |}
         ∈ (enumerate_processes vmi fuel).2).
Proof.
  intros Ht Hp Hn Hhead (Hfirst & Hnd & Haddr & Hchain) Hfuel.
  assert (list_head ∉ tail links) as Hnotin.
  { destruct links as [|l rest]; [done|]. injection Hfirst as ->.
    by apply NoDup_cons_1_1. }
  pose proof (enumerate_processes_chain vmi list_head links (Some list_head) fuel
                Ht Hp Hn Hhead Hfirst Hnotin Haddr Hchain (or_intror eq_refl) Hfuel)
    as Hout.
  split_and!.
  - done.
  - pose proof (decoded_skipped_length vmi (get_offset_safe vmi "win_pid")
                  (get_offset_safe vmi "win_pname")
                  ((λ l, wrap64 (l - get_offset_safe vmi "win_tasks")) <$> links)) as Hlen.
    rewrite length_fmap in Hlen. lia.
  - intros b. unfold skipped_nodes. rewrite list_elem_of_filter, read_process_None. tauto.
  - intros r. rewrite Hout. cbn [snd]. rewrite process_report_records.
    apply decoded_records_addr.
  - intros l v s Hl Hv Hs. rewrite Hout. cbn [snd]. rewrite process_report_records.
    unfold decoded_records. rewrite list_elem_of_omap.
    exists (wrap64 (l - get_offset_safe vmi "win_tasks")). split.
    + apply list_elem_of_fmap. by exists l.
    + unfold read_process. by rewrite Hv, Hs.
Qed.

(** The list A -> B -> C -> A where the read of C's name fails: the pass
    goes round the three nodes, skips C and prints the records of A and B
    and the total 2 = 3 - 1. *)
Lemma data_read_failure_skips_node_abc :
  enumerate_processes guest_abc_noname 3
  = (Some DEMO_SUCCESS,
     process_header
     ++ [EProcess {| pid := 4; name := "System"; eprocess_addr := 0x1000 |};
         EProcess {| pid := 300; name := "smss.exe"; eprocess_addr := 0x2000 |};
         ETotalProcesses 2])
  ∧ skipped_nodes guest_abc_noname 0x180 0x2e0 [0x1000; 0x2000; 0x3000] = [0x3000].
Proof.
  pose proof (data_read_failure_skips_node guest_abc_noname 0x1188
                [0x1188; 0x2188; 0x3188] 3) as H.
  destruct H as (Hout & _).
  - evaluate.
  - evaluate.
  - evaluate.
  - reflexivity.
  - unfold circular_list. split_and!.
    + reflexivity.
    + apply NoDup_ListNoDup. repeat constructor; simpl; intuition lia.
    + repeat constructor; unfold is_addr; lia.
    + simpl. split_and!; reflexivity.
  - simpl. lia.
  - split; [exact Hout|]. vm_compute. reflexivity.
Defined.

(** ** C5: a missing offset *)

Lemma enumerate_processes_zero_offset vmi fuel :
  get_offset_safe vmi "win_tasks" = 0 ∨ get_offset_safe vmi "win_pid" = 0
  ∨ get_offset_safe vmi "win_pname" = 0 →
  enumerate_processes vmi fuel = offsets_unavailable.
Proof. intros H. unfold enumerate_processes. by rewrite decide_True. Qed.

Lemma get_offset_safe_None vmi offset_name :
  vmi_get_offset vmi offset_name = None → get_offset_safe vmi offset_name = 0.
Proof. unfold get_offset_safe. by intros ->. Qed.

(** What [main] does when the process pass returns an error. *)
Lemma main_process_failure init argv vmi fuel out :
  init (domain_of argv) = Some vmi →
  enumerate_processes vmi fuel = (Some DEMO_ERROR_PROCESS, out) →
  main init argv fuel
  = Run (Some EXIT_FAILURE) None
        (main_prologue (domain_of argv) ++ out
         ++ [EText "ERROR: Process enumeration failed\n"; EVmiDestroy]).
Proof.
  intros Hinit Hpass. unfold main, initialize_vmi.
  fold (domain_of argv). rewrite Hinit. simpl. rewrite Hpass. simpl.
  unfold main_cleanup. simpl. by rewrite <- !app_assoc.
Qed.

(** Called directly, outside [main], with the required offset [win_pid]
    missing, the module pass and the thread pass make no check: each walks
    the list with the offset 0 and returns [DEMO_SUCCESS].  [main] never
    calls them so (see [missing_offset_fails_process_pass]). *)
Example module_and_thread_pass_ignore_missing_offset :
  vmi_get_offset guest_no_pid "win_pid" = None
  ∧ enumerate_modules guest_no_pid 3
    = (Some DEMO_SUCCESS,
       module_header
       ++ [EModuleProcess 300 "svchost.exe"; EModuleWord 300;
           EModuleProcess 300 "svchost.exe"; EModuleWord 300;
           EModuleProcess 300 "svchost.exe"; EModuleWord 300;
           EModulesAnalyzed 3])
  ∧ enumerate_threads guest_no_pid 3
    = (Some DEMO_SUCCESS,
       thread_header
       ++ [EThreadProcess 300 "svchost.exe"; EThreadAccessible;
           EThreadProcess 300 "svchost.exe"; EThreadAccessible;
           EThreadProcess 300 "svchost.exe"; EThreadAccessible;
           EThreadsAnalyzed 3]).
Proof. split_and!; vm_compute; reflexivity. Qed.

(** A process pass that does not fail on the offsets found all three
    configured, none as 0. *)
Lemma enumerate_processes_offsets vmi fuel :
  enumerate_processes vmi fuel ≠ offsets_unavailable → offsets_available vmi.
Proof.
  intros Hpass.
  assert (get_offset_safe vmi "win_tasks" ≠ 0 ∧ get_offset_safe vmi "win_pid" ≠ 0
          ∧ get_offset_safe vmi "win_pname" ≠ 0) as (Ht & Hp & Hn).
  { split_and!; intros H0; apply Hpass, enumerate_processes_zero_offset; auto. }
  assert (∀ name, get_offset_safe vmi name ≠ 0 →
                  ∃ offset, vmi_get_offset vmi name = Some offset ∧ offset ≠ 0) as Hget.
  { intros name. unfold get_offset_safe.
    destruct (vmi_get_offset vmi name) as [offset|]; [eauto|done]. }
  intros name. rewrite !elem_of_cons, elem_of_nil.
  intros [->|[->|[->|[]]]]; by apply Hget.
Qed.

(** The process pass prints no title line of a later pass. *)
Lemma enumerate_processes_titles vmi fuel tr1 tr2 :
  later_pass_ran (tr1 ++ (enumerate_processes vmi fuel).2 ++ tr2) →
  later_pass_ran (tr1 ++ tr2).
Proof.
  assert (∀ title, title ≠ "PROCESS ENUMERATION\n" →
    title ≠ "\n============================================================\n" →
    title ≠ "============================================================\n" →
    title ≠ "ERROR: Required process offsets not available\n" →
    title ≠ "ERROR: Failed to find PsActiveProcessHead\n" →
    EText title ∈ (enumerate_processes vmi fuel).2 → False) as Hno.
  { intros title H1 H2 H3 H4 H5. unfold enumerate_processes, process_header.
    destruct (decide _).
    { cbn [snd]. rewrite !elem_of_app, !elem_of_cons, !elem_of_nil.
      intros [[[=]|[[=]|[[=]|[]]]]|[[=]|[]]]; done. }
    destruct (vmi_read_addr_ksym vmi _) as [list_head|].
    2:{ cbn [snd]. rewrite !elem_of_app, !elem_of_cons, !elem_of_nil.
        intros [[[=]|[[=]|[[=]|[]]]]|[[=]|[]]]; done. }
    unfold process_walk.
    destruct (walk_stop _); cbn [snd]; rewrite process_loop_out;
      rewrite !elem_of_app, !elem_of_cons, !elem_of_nil, list_elem_of_fmap.
    - intros [[[=]|[[=]|[[=]|[]]]]|[(r & [=] & _)|[[=]|[]]]]; done.
    - intros [[[=]|[[=]|[[=]|[]]]]|(r & [=] & _)]; done. }
  unfold later_pass_ran. rewrite !elem_of_app.
  intros [[?|[Hin|?]]|[?|[Hin|?]]]; auto;
    exfalso; revert Hin; by apply Hno.
Qed.

(** C5: in every run of the program, a pass that runs with a required
    offset (tasks, pid or name) absent reports the one structural failure
    and yields no record, whatever the guest list.  The process pass checks
    the offsets itself: with one absent it prints the error and nothing
    else.  [main] then stops: it prints no record of any pass and starts
    neither the module pass nor the thread pass.  The module and thread
    passes therefore only ever run with the three offsets configured and
    not zero: this is what a process pass that got past the check has
    found. *)
Theorem missing_offset_fails_process_pass vmi fuel :
  (vmi_get_offset vmi "win_tasks" = None ∨ vmi_get_offset vmi "win_pid" = None
   ∨ vmi_get_offset vmi "win_pname" = None →
   enumerate_processes vmi fuel = offsets_unavailable
   ∧ ∀ init argv,
       init (domain_of argv) = Some vmi →
       main init argv fuel
       = Run (Some EXIT_FAILURE) None
             (main_prologue (domain_of argv) ++ process_header
              ++ [EText "ERROR: Required process offsets not available\n";
                  EText "ERROR: Process enumeration failed\n"; EVmiDestroy])
       ∧ ¬ later_pass_ran (trace (main init argv fuel))
       ∧ Forall (λ e, pass_record_line e = false) (trace (main init argv fuel)))
  ∧ ((enumerate_processes vmi fuel).1 = Some DEMO_SUCCESS → offsets_available vmi)
  ∧ (∀ init argv,
       init (domain_of argv) = Some vmi →
       later_pass_ran (trace (main init argv fuel)) →
       (enumerate_processes vmi fuel).1 = Some DEMO_SUCCESS ∧ offsets_available vmi).
Proof.
  split_and!.
  - intros Habsent.
    assert (enumerate_processes vmi fuel = offsets_unavailable) as Hpass.
    { apply enumerate_processes_zero_offset.
      destruct Habsent as [H|[H|H]]; apply get_offset_safe_None in H; auto. }
    split; [done|]. intros init argv Hinit.
    rewrite (main_process_failure init argv vmi fuel _ Hinit Hpass).
    cbn [trace]. split_and!.
    + by rewrite <- !app_assoc.
    + unfold later_pass_ran, main_prologue, process_header.
      rewrite !elem_of_app, !elem_of_cons, !elem_of_nil.
      intros [H|H]; repeat (destruct H as [H|H]); done.
    + by repeat constructor.
  - intros Hok. apply (enumerate_processes_offsets vmi fuel).
    intros Heq. by rewrite Heq in Hok.
  - intros init argv Hinit Hran.
    assert ((enumerate_processes vmi fuel).1 = Some DEMO_SUCCESS) as Hok.
    { destruct (decide ((enumerate_processes vmi fuel).1 = Some DEMO_SUCCESS))
        as [|Hne]; [done|]. exfalso.
      unfold main, initialize_vmi in Hran. fold (domain_of argv) in Hran.
      rewrite Hinit in Hran. cbn beta iota zeta in Hran.
      rewrite (decide_False (P := DEMO_SUCCESS ≠ DEMO_SUCCESS)) in Hran
        by (by intros ?).
      pose proof (enumerate_processes_titles vmi fuel) as Htitles.
      destruct (enumerate_processes vmi fuel) as [[result|] o];
        cbn [fst snd main_stage] in *.
      - rewrite decide_True in Hran by congruence.
        unfold main_cleanup in Hran. cbn [cleanup_vmi trace] in Hran.
        rewrite <- !app_assoc in Hran.
        apply (Htitles (main_prologue (domain_of argv))
                 [EText "ERROR: Process enumeration failed\n"; EVmiDestroy]) in Hran.
        revert Hran. unfold later_pass_ran, main_prologue.
        rewrite !elem_of_app, !elem_of_cons, !elem_of_nil.
        intros [H|H]; repeat (destruct H as [H|H]); done.
      - cbn [trace] in Hran.
        rewrite <- (app_nil_r o), <- !app_assoc in Hran.
        apply (Htitles (main_prologue (domain_of argv)) []) in Hran.
        revert Hran. unfold later_pass_ran, main_prologue.
        rewrite !elem_of_app, !elem_of_cons, !elem_of_nil.
        intros [H|H]; repeat (destruct H as [H|H]); done. }
    split; [done|]. apply (enumerate_processes_offsets vmi fuel).
    intros Heq. by rewrite Heq in Hok.
Qed.

(** On [guest_no_pid], whose list has three decodable nodes, the process
    pass prints the one error and [main] stops there. *)
Lemma missing_offset_fails_process_pass_no_pid :
  enumerate_processes guest_no_pid 3 = offsets_unavailable
  ∧ main (host_of guest_no_pid) ["vmi_demo"] 3
    = Run (Some EXIT_FAILURE) None
          (main_prologue "win7-vmi" ++ process_header
           ++ [EText "ERROR: Required process offsets not available\n";
               EText "ERROR: Process enumeration failed\n"; EVmiDestroy]).
Proof.
  destruct (missing_offset_fails_process_pass guest_no_pid 3) as [Habsent _].
  destruct Habsent as [Hpass Hmain].
  - right; left. reflexivity.
  - split; [exact Hpass|].
    apply (Hmain (host_of guest_no_pid) ["vmi_demo"]). reflexivity.
Defined.

(** ** C6: what the report shows *)

(** C6, counterexample: the three-node list whose third name read fails
    ([guest_abc_noname]: three nodes visited, one skipped) and the
    two-node list read without failure ([guest_ab]: two visited, none
    skipped) give the same report, records of A and B and the total 2:
    the report shows neither the number of nodes visited nor the number
    skipped, and has no corruption flag. *)
Lemma report_hides_visited_and_skipped :
  enumerate_processes guest_abc_noname 3 = enumerate_processes guest_ab 3
  ∧ enumerate_processes guest_ab 3
    = (Some DEMO_SUCCESS,
       process_header
       ++ [EProcess {| pid := 4; name := "System"; eprocess_addr := 0x1000 |};
           EProcess {| pid := 300; name := "smss.exe"; eprocess_addr := 0x2000 |};
           ETotalProcesses 2])
  ∧ length (walk_nodes (process_walk guest_abc_noname 0x1188 3)) = 3%nat
  ∧ length (skipped_nodes guest_abc_noname 0x180 0x2e0
              (walk_nodes (process_walk guest_abc_noname 0x1188 3))) = 1%nat
  ∧ length (walk_nodes (process_walk guest_ab 0x1188 3)) = 2%nat
  ∧ length (skipped_nodes guest_ab 0x180 0x2e0
              (walk_nodes (process_walk guest_ab 0x1188 3))) = 0%nat.
Proof. split_and!; vm_compute; reflexivity. Qed.

(** C6, as the code has it: after a pass that returns [DEMO_SUCCESS] the
    report of [enumerate_processes] is made of the records of the visited
    nodes that decoded and of one counter, their number (as a 32-bit
    [int]); nothing else is shown. *)
Theorem report_shows_decoded_count_only vmi fuel out :
  enumerate_processes vmi fuel = (Some DEMO_SUCCESS, out) →
  ∃ list_head,
    vmi_read_addr_ksym vmi "PsActiveProcessHead" = Some list_head
    ∧ out = process_report
              (decoded_records vmi (get_offset_safe vmi "win_pid")
                 (get_offset_safe vmi "win_pname")
                 (walk_nodes (process_walk vmi list_head fuel))).
Proof.
  unfold enumerate_processes.
  destruct (decide _) as [|Hoff]; [done|].
  destruct (vmi_read_addr_ksym vmi "PsActiveProcessHead") as [list_head|]; [|done].
  pose proof (process_walk_total vmi list_head fuel) as Htotal.
  destruct (walk_stop (process_walk vmi list_head fuel)); [|done].
  intros [= <-]. exists list_head. split; [done|].
  rewrite Htotal. unfold process_report, process_walk.
  by rewrite process_loop_out, !length_fmap.
Qed.

(** The three-node list whose third name read fails: the report is the
    records of A and B and the total 2. *)
Lemma report_shows_decoded_count_only_abc :
  ∃ list_head,
    vmi_read_addr_ksym guest_abc_noname "PsActiveProcessHead" = Some list_head
    ∧ process_header
      ++ [EProcess {| pid := 4; name := "System"; eprocess_addr := 0x1000 |};
          EProcess {| pid := 300; name := "smss.exe"; eprocess_addr := 0x2000 |};
          ETotalProcesses 2]
      = process_report
          (decoded_records guest_abc_noname (get_offset_safe guest_abc_noname "win_pid")
             (get_offset_safe guest_abc_noname "win_pname")
             (walk_nodes (process_walk guest_abc_noname list_head 3))).
Proof.
  apply (report_shows_decoded_count_only guest_abc_noname 3).
  vm_compute. reflexivity.
Defined.

(** ** C7: a structural failure ends the run *)

(** A pass fails for a structural reason only. *)
Lemma enumerate_processes_error vmi fuel :
  fst (enumerate_processes vmi fuel) = Some DEMO_ERROR_PROCESS
  ↔ get_offset_safe vmi "win_tasks" = 0 ∨ get_offset_safe vmi "win_pid" = 0
    ∨ get_offset_safe vmi "win_pname" = 0
    ∨ vmi_read_addr_ksym vmi "PsActiveProcessHead" = None.
Proof.
  unfold enumerate_processes.
  destruct (decide _) as [Hoff|Hoff]; [simpl; tauto|].
  destruct (vmi_read_addr_ksym vmi "PsActiveProcessHead") as [list_head|];
    [|simpl; tauto].
  destruct (walk_stop _); simpl; split; try done; intros [?|[?|[?|?]]]; try done; tauto.
Qed.

(** C7, counterexample: on [guest_no_pid] the process pass reports a
    structural failure, and [main] ends there with [EXIT_FAILURE]: neither
    the module pass nor the thread pass runs. *)
Lemma structural_failure_skips_other_passes :
  main (host_of guest_no_pid) ["vmi_demo"] 3
  = Run (Some EXIT_FAILURE) None
        [EBanner "win7-vmi"; EInitOk "win7-vmi";
         EText "\nStarting VMI introspection...\n";
         EText "\n============================================================\n";
         EText "PROCESS ENUMERATION\n";
         EText "============================================================\n";
         EText "ERROR: Required process offsets not available\n";
         EText "ERROR: Process enumeration failed\n";
         EVmiDestroy].
Proof. vm_compute. reflexivity. Qed.

(** C7, as the code has it: a structural failure of the process pass (a
    required offset missing or zero, or the head symbol unreadable) ends
    the run: [main] prints the stage's error after the pass's own, runs no
    further pass, releases the session and exits with [EXIT_FAILURE].  The
    failure is distinct from per-node issues: the pass returns an error
    for these structural reasons only, whatever the reads of the nodes
    do. *)
Theorem structural_failure_ends_run init argv vmi fuel out :
  init (domain_of argv) = Some vmi →
  enumerate_processes vmi fuel = (Some DEMO_ERROR_PROCESS, out) →
  main init argv fuel
  = Run (Some EXIT_FAILURE) None
        (main_prologue (domain_of argv) ++ out
         ++ [EText "ERROR: Process enumeration failed\n"; EVmiDestroy])
  ∧ (out = process_header ++ [EText "ERROR: Required process offsets not available\n"]
     ∨ out = process_header ++ [EText "ERROR: Failed to find PsActiveProcessHead\n"])
  ∧ (∀ vmi' fuel',
       fst (enumerate_processes vmi' fuel') = Some DEMO_ERROR_PROCESS
       ↔ get_offset_safe vmi' "win_tasks" = 0 ∨ get_offset_safe vmi' "win_pid" = 0
         ∨ get_offset_safe vmi' "win_pname" = 0
         ∨ vmi_read_addr_ksym vmi' "PsActiveProcessHead" = None).
Proof.
  intros Hinit Hpass. split; [by apply (main_process_failure init argv vmi)|].
  split; [|intros; apply enumerate_processes_error].
  revert Hpass. unfold enumerate_processes.
  destruct (decide _); [intros [= <-]; by left|].
  destruct (vmi_read_addr_ksym vmi "PsActiveProcessHead"); [|intros [= <-]; by right].
  by destruct (walk_stop _).
Qed.

(** On [guest_no_pid], named on the command line: the run ends after the
    failed process pass. *)
Lemma structural_failure_ends_run_no_pid :
  main (host_of guest_no_pid) ["vmi_demo"; "win7-vmi"] 3
  = Run (Some EXIT_FAILURE) None
        (main_prologue "win7-vmi"
         ++ (process_header ++ [EText "ERROR: Required process offsets not available\n"])
         ++ [EText "ERROR: Process enumeration failed\n"; EVmiDestroy]).
Proof.
  apply (structural_failure_ends_run (host_of guest_no_pid)
           ["vmi_demo"; "win7-vmi"] guest_no_pid 3).
  - reflexivity.
  - reflexivity.
Defined.

(** ** C8: the zero sentinel of [get_offset_safe] *)

(** C8: [get_offset_safe] returns 0 when the lookup fails and when the
    configured value is 0, and in no other case, so a caller cannot tell
    the two apart; [enumerate_processes] therefore reports the offsets as
    unavailable as soon as one of the three required offsets is
    configured as 0. *)
Theorem get_offset_safe_conflates vmi offset_name :
  (vmi_get_offset vmi offset_name = None → get_offset_safe vmi offset_name = 0)
  ∧ (vmi_get_offset vmi offset_name = Some 0 → get_offset_safe vmi offset_name = 0)
  ∧ (get_offset_safe vmi offset_name = 0
     → vmi_get_offset vmi offset_name = None ∨ vmi_get_offset vmi offset_name = Some 0)
  ∧ (∀ fuel,
       vmi_get_offset vmi "win_tasks" = Some 0 ∨ vmi_get_offset vmi "win_pid" = Some 0
       ∨ vmi_get_offset vmi "win_pname" = Some 0 →
       enumerate_processes vmi fuel = offsets_unavailable).
Proof.
  split_and!.
  - apply get_offset_safe_None.
  - apply get_offset_safe_Some.
  - unfold get_offset_safe. destruct (vmi_get_offset vmi offset_name); [|by left].
    intros ->. by right.
  - intros fuel H. apply enumerate_processes_zero_offset.
    destruct H as [H|[H|H]]; apply (get_offset_safe_Some vmi _ 0) in H; auto.
Qed.

(** [win_pid] configured as 0 and [win_pid] missing look the same. *)
Example get_offset_safe_conflates_pid :
  vmi_get_offset guest_zero_pid "win_pid" = Some 0
  ∧ vmi_get_offset guest_no_pid "win_pid" = None
  ∧ get_offset_safe guest_zero_pid "win_pid" = get_offset_safe guest_no_pid "win_pid"
  ∧ enumerate_processes guest_zero_pid 3 = enumerate_processes guest_no_pid 3.
Proof. split_and!; vm_compute; reflexivity. Qed.

(** ** C9: the heuristic pointer scan *)

Lemma scan_offsets_eq :
  scan_offsets
  = [0x150; 0x158; 0x160; 0x168; 0x170; 0x178; 0x180; 0x188; 0x190; 0x198; 0x1a0;
     0x1a8; 0x1b0; 0x1b8; 0x1c0; 0x1c8; 0x1d0; 0x1d8; 0x1e0; 0x1e8; 0x1f0; 0x1f8].
Proof. vm_compute. reflexivity. Qed.

Lemma scan_offsets_spec o :
  o ∈ scan_offsets ↔ 0x150 ≤ o < 0x200 ∧ (o - 0x150) mod 8 = 0.
Proof.
  rewrite scan_offsets_eq, list_elem_of_In. simpl In. split.
  - intros H. repeat (destruct H as [<-|H]; [split; [lia|reflexivity]|]). done.
  - intros [Hrange Hmod].
    apply Z.mod_divide in Hmod; [|lia]. destruct Hmod as [k Hk]. lia.
Qed.

Lemma is_kernel_pointer_spec v :
  is_kernel_pointer v = true ↔ 0xfffff80000000000 < v < 0xffffffffffffffff.
Proof. unfold is_kernel_pointer. by rewrite bool_decide_eq_true. Qed.

Lemma kernel_pointer_at_true vmi b o :
  kernel_pointer_at vmi b o = true →
  ∃ ptr, vmi_read_addr_va vmi (wrap64 (b + o)) = Some ptr ∧ is_kernel_pointer ptr = true.
Proof.
  unfold kernel_pointer_at. destruct (vmi_read_addr_va vmi _) as [ptr|]; [eauto|done].
Qed.

Lemma thread_scan_step_hit vmi b st o ptr :
  vmi_read_addr_va vmi (wrap64 (b + o)) = Some ptr →
  is_kernel_pointer ptr = true →
  thread_scan_step vmi b st o
  = (wrap32 (st.1 + 1),
     if decide (wrap32 (st.1 + 1) ≤ 3) then st.2 ++ [EThreadPointer o ptr] else st.2).
Proof. unfold thread_scan_step. by intros -> ->. Qed.

Lemma thread_scan_step_miss vmi b st o :
  kernel_pointer_at vmi b o = false → thread_scan_step vmi b st o = st.
Proof.
  unfold thread_scan_step, kernel_pointer_at.
  destruct (vmi_read_addr_va vmi _) as [ptr|]; [|done]. by intros ->.
Qed.

(** The scan over the offsets [l], entered with [thread_count = c]:
    [thread_count] counts the readable words that pass the test, and the
    lines added are samples of such words, for the first three counts. *)
Lemma thread_scan_fold vmi b l :
  ∀ c out,
  0 ≤ c → c + Z.of_nat (length l) < 2 ^ 32 →
  (foldl (thread_scan_step vmi b) (c, out) l).1
  = c + Z.of_nat (length (filter (λ o, kernel_pointer_at vmi b o = true) l))
  ∧ ∃ samples,
      (foldl (thread_scan_step vmi b) (c, out) l).2 = out ++ samples
      ∧ Z.of_nat (length samples) ≤ Z.max 0 (3 - c)
      ∧ Forall (λ e, ∃ o ptr, e = EThreadPointer o ptr ∧ o ∈ l
                   ∧ vmi_read_addr_va vmi (wrap64 (b + o)) = Some ptr
                   ∧ is_kernel_pointer ptr = true) samples.
Proof.
  induction l as [|o l IH]; intros c out Hc Hlen.
  { simpl. split; [lia|]. exists []. rewrite app_nil_r. split_and!; [done|simpl; lia|done]. }
  assert (∀ samples,
    Forall (λ e, ∃ o' ptr', e = EThreadPointer o' ptr' ∧ o' ∈ l
              ∧ vmi_read_addr_va vmi (wrap64 (b + o')) = Some ptr'
              ∧ is_kernel_pointer ptr' = true) samples →
    Forall (λ e, ∃ o' ptr', e = EThreadPointer o' ptr' ∧ o' ∈ o :: l
              ∧ vmi_read_addr_va vmi (wrap64 (b + o')) = Some ptr'
              ∧ is_kernel_pointer ptr' = true) samples) as Hweaken.
  { intros samples Hall. eapply Forall_impl; [exact Hall|].
    intros e (o' & ptr' & ? & ? & ? & ?). exists o', ptr'. split_and!; try done. by right. }
  cbn [foldl length] in *. rewrite filter_cons.
  destruct (kernel_pointer_at vmi b o) eqn:Hk.
  - apply kernel_pointer_at_true in Hk as (ptr & Hread & Hptr).
    rewrite (thread_scan_step_hit vmi b (c, out) o ptr Hread Hptr).
    rewrite (decide_True (P := true = true)) by done. cbn [fst snd length].
    rewrite wrap32_small by lia.
    destruct (IH (c + 1)
                (if decide (c + 1 ≤ 3) then out ++ [EThreadPointer o ptr] else out))
      as (Hcount & samples & Hout & Hn & Hall); [lia|lia|].
    split; [lia|]. apply Hweaken in Hall.
    destruct (decide (c + 1 ≤ 3)).
    + exists (EThreadPointer o ptr :: samples). rewrite Hout, <- app_assoc.
      split_and!; [done|simpl; lia|].
      constructor; [|done]. exists o, ptr. split_and!; try done. by left.
    + exists samples. split_and!; [done|lia|done].
  - rewrite (thread_scan_step_miss vmi b (c, out) o Hk).
    rewrite (decide_False (P := false = true)) by done.
    destruct (IH c out) as (Hcount & samples & Hout & Hn & Hall); [lia|lia|].
    split; [done|]. exists samples. split_and!; [done|done|by apply Hweaken].
Qed.

(** The scan reads the guest at the scanned offsets of the node only. *)
Lemma thread_scan_ext vmi vmi' b :
  (∀ o, o ∈ scan_offsets →
        vmi_read_addr_va vmi' (wrap64 (b + o)) = vmi_read_addr_va vmi (wrap64 (b + o))) →
  thread_scan vmi' b = thread_scan vmi b.
Proof.
  unfold thread_scan. generalize (0, @nil event). generalize scan_offsets.
  intros l. induction l as [|o l IH]; intros st Hreads; [done|].
  cbn [foldl]. unfold thread_scan_step at 2 4.
  rewrite Hreads by left.
  apply IH. intros o' Ho'. apply Hreads. by right.
Qed.

Lemma thread_scan_spec vmi b :
  (thread_scan vmi b).1
  = Z.of_nat (length (filter (λ o, kernel_pointer_at vmi b o = true) scan_offsets))
  ∧ 0 ≤ (thread_scan vmi b).1 ≤ 22
  ∧ (length (thread_scan vmi b).2 ≤ 3)%nat
  ∧ Forall (λ e, ∃ o ptr, e = EThreadPointer o ptr ∧ o ∈ scan_offsets
               ∧ vmi_read_addr_va vmi (wrap64 (b + o)) = Some ptr
               ∧ is_kernel_pointer ptr = true) (thread_scan vmi b).2.
Proof.
  unfold thread_scan.
  destruct (thread_scan_fold vmi b scan_offsets 0 [])
    as (Hcount & samples & Hout & Hn & Hall); [lia|by vm_compute|].
  rewrite Hcount, Hout. simpl.
  pose proof (length_filter (λ o, kernel_pointer_at vmi b o = true) scan_offsets) as Hle.
  replace (length scan_offsets) with 22%nat in Hle by (vm_compute; reflexivity).
  split_and!; [lia|lia|lia|lia|done].
Qed.

Lemma analyzed_count_app out1 out2 :
  analyzed_count (out1 ++ out2) = (analyzed_count out1 + analyzed_count out2)%nat.
Proof. unfold analyzed_count. by rewrite filter_app, length_app. Qed.

Lemma analyzed_count_cons e out :
  analyzed_count (e :: out)
  = ((if is_thread_process e then 1 else 0) + analyzed_count out)%nat.
Proof.
  unfold analyzed_count. rewrite filter_cons.
  by destruct (is_thread_process e); [rewrite decide_True|rewrite decide_False].
Qed.

Lemma analyzed_count_samples vmi b : analyzed_count (thread_scan vmi b).2 = 0%nat.
Proof.
  destruct (thread_scan_spec vmi b) as (_ & _ & _ & Hall).
  unfold analyzed_count. induction Hall as [|e l (o & ptr & -> & _) _ IH]; [done|].
  rewrite filter_cons. by rewrite decide_False.
Qed.

(** The analysis of a node keeps [total_processes_analyzed] below its
    ceiling and prints one [EThreadProcess] line per increment. *)
Lemma thread_analysis_count vmi p c :
  0 ≤ c ≤ 10 →
  0 ≤ (thread_analysis vmi p c).1 ≤ 10
  ∧ (thread_analysis vmi p c).1 = c + Z.of_nat (analyzed_count (thread_analysis vmi p c).2).
Proof.
  intros Hc. unfold thread_analysis.
  destruct (bool_decide (4 < pid p));
    [|cbn [andb fst snd]; change (analyzed_count []) with 0%nat; lia].
  destruct (bool_decide (c < 10)) eqn:Hlt;
    [|cbn [andb fst snd]; change (analyzed_count []) with 0%nat; lia].
  apply bool_decide_eq_true in Hlt.
  pose proof (analyzed_count_samples vmi (eprocess_addr p)) as Hs.
  destruct (thread_scan vmi (eprocess_addr p)) as [thread_count samples].
  cbn [andb fst snd] in *. rewrite wrap32_small by lia.
  change (EThreadProcess (pid p) (name p) :: samples ++ ?l)
    with ([EThreadProcess (pid p) (name p)] ++ samples ++ l).
  rewrite !analyzed_count_app, Hs.
  rewrite !analyzed_count_cons. change (analyzed_count []) with 0%nat.
  split; [lia|]. destruct (decide (0 < thread_count)); cbn [is_thread_process]; lia.
Qed.

Lemma thread_loop_count vmi list_head t p n fuel :
  ∀ current c,
  0 ≤ c ≤ 10 →
  0 ≤ walk_count (thread_loop vmi list_head t p n fuel current c) ≤ 10
  ∧ walk_count (thread_loop vmi list_head t p n fuel current c)
    = c + Z.of_nat (analyzed_count (walk_out (thread_loop vmi list_head t p n fuel current c))).
Proof.
  induction fuel as [|fuel IH]; intros current c Hc;
    [cbn [thread_loop walk_count walk_out]; change (analyzed_count []) with 0%nat; lia|].
  cbn [thread_loop].
  assert (∃ c' out,
    match read_process vmi (wrap64 (current - t)) p n with
    | Some p0 => thread_analysis vmi p0 c
    | None => (c, [])
    end = (c', out) ∧ 0 ≤ c' ≤ 10 ∧ c' = c + Z.of_nat (analyzed_count out))
    as (c' & out & -> & Hc' & Hout).
  { destruct (read_process vmi _ p n) as [p0|].
    - pose proof (thread_analysis_count vmi p0 c Hc).
      destruct (thread_analysis vmi p0 c) as [c' out]. by exists c', out.
    - exists c, []. change (analyzed_count []) with 0%nat. split_and!; [done|lia..]. }
  destruct (vmi_read_addr_va vmi _) as [next|];
    [destruct (decide (next = list_head))|]; cbn [walk_count walk_out]; try lia.
  destruct (IH next c' Hc') as [Hr Hcount].
  rewrite analyzed_count_app. lia.
Qed.

Lemma enumerate_threads_error vmi fuel :
  fst (enumerate_threads vmi fuel) = Some DEMO_ERROR_PROCESS
  ↔ vmi_read_addr_ksym vmi "PsActiveProcessHead" = None.
Proof.
  unfold enumerate_threads.
  destruct (vmi_read_addr_ksym vmi "PsActiveProcessHead"); [|done].
  by destruct (walk_stop _).
Qed.

Lemma enumerate_threads_analyzed vmi fuel :
  (analyzed_count (snd (enumerate_threads vmi fuel)) ≤ 10)%nat.
Proof.
  unfold enumerate_threads.
  destruct (vmi_read_addr_ksym vmi "PsActiveProcessHead") as [list_head|];
    [|vm_compute; lia].
  pose proof (thread_loop_count vmi list_head (get_offset_safe vmi "win_tasks")
                (get_offset_safe vmi "win_pid") (get_offset_safe vmi "win_pname")
                fuel list_head 0 ltac:(lia)) as [Hr Hcount].
  destruct (walk_stop _); cbn [snd]; rewrite !analyzed_count_app;
    unfold thread_header; rewrite !analyzed_count_cons;
    change (analyzed_count []) with 0%nat; cbn [is_thread_process]; lia.
Qed.

(** ** C10: the session is released exactly once *)

Lemma destroy_count_app tr1 tr2 :
  destroy_count (tr1 ++ tr2) = (destroy_count tr1 + destroy_count tr2)%nat.
Proof. unfold destroy_count. by rewrite filter_app, length_app. Qed.

Lemma destroy_count_quiet out :
  Forall (λ e, e ≠ EVmiDestroy) out → destroy_count out = 0%nat.
Proof.
  unfold destroy_count. induction 1 as [|e out He _ IH]; [done|].
  rewrite filter_cons. by rewrite decide_False.
Qed.

(** No pass releases the session: none of the lines a pass prints is a
    call of [vmi_destroy]. *)
Lemma process_loop_quiet vmi list_head t p n fuel current count :
  Forall (λ e, e ≠ EVmiDestroy)
         (walk_out (process_loop vmi list_head t p n fuel current count)).
Proof.
  rewrite process_loop_out. apply Forall_fmap, Forall_forall. by intros r _.
Qed.

Lemma module_loop_quiet vmi list_head t p n fuel :
  ∀ current total,
  Forall (λ e, e ≠ EVmiDestroy)
         (walk_out (module_loop vmi list_head t p n fuel current total)).
Proof.
  induction fuel as [|fuel IH]; intros current total; [by constructor|].
  cbn [module_loop].
  assert (∃ total' out,
    match read_process vmi (wrap64 (current - t)) p n with
    | Some p0 => module_analysis vmi p0 total
    | None => (total, [])
    end = (total', out) ∧ Forall (λ e, e ≠ EVmiDestroy) out)
    as (total' & out & -> & Hout).
  { destruct (read_process vmi _ p n) as [p0|]; [|by exists total, []].
    unfold module_analysis.
    destruct (_ && _); [|by exists total, []].
    eexists _, _. split; [done|].
    destruct (vmi_read_32_va vmi _); by repeat constructor. }
  destruct (vmi_read_addr_va vmi _) as [next|];
    [destruct (decide (next = list_head)); [|destruct (decide (total' < 10))]|];
    cbn [walk_out]; try done.
  apply Forall_app. split; [done|apply IH].
Qed.

Lemma thread_analysis_quiet vmi p0 total :
  Forall (λ e, e ≠ EVmiDestroy) (thread_analysis vmi p0 total).2.
Proof.
  unfold thread_analysis. destruct (_ && _); [|by constructor].
  destruct (thread_scan_spec vmi (eprocess_addr p0)) as (_ & _ & _ & Hall).
  destruct (thread_scan vmi (eprocess_addr p0)) as [thread_count samples].
  cbn [snd] in *. constructor; [done|]. apply Forall_app. split.
  - eapply Forall_impl; [exact Hall|]. by intros e (o & ptr & -> & _).
  - constructor; [|done]. by destruct (decide (0 < thread_count)).
Qed.

Lemma thread_loop_quiet vmi list_head t p n fuel :
  ∀ current total,
  Forall (λ e, e ≠ EVmiDestroy)
         (walk_out (thread_loop vmi list_head t p n fuel current total)).
Proof.
  induction fuel as [|fuel IH]; intros current total; [by constructor|].
  cbn [thread_loop].
  assert (∃ total' out,
    match read_process vmi (wrap64 (current - t)) p n with
    | Some p0 => thread_analysis vmi p0 total
    | None => (total, [])
    end = (total', out) ∧ Forall (λ e, e ≠ EVmiDestroy) out)
    as (total' & out & -> & Hout).
  { destruct (read_process vmi _ p n) as [p0|]; [|by exists total, []].
    pose proof (thread_analysis_quiet vmi p0 total).
    destruct (thread_analysis vmi p0 total) as [total' out]. by exists total', out. }
  destruct (vmi_read_addr_va vmi _) as [next|];
    [destruct (decide (next = list_head))|]; cbn [walk_out]; try done.
  apply Forall_app. split; [done|apply IH].
Qed.

Lemma enumerate_processes_quiet vmi fuel :
  destroy_count (enumerate_processes vmi fuel).2 = 0%nat.
Proof.
  apply destroy_count_quiet. unfold enumerate_processes.
  destruct (decide _); [by repeat constructor|].
  destruct (vmi_read_addr_ksym vmi _) as [list_head|]; [|by repeat constructor].
  pose proof (process_loop_quiet vmi list_head (get_offset_safe vmi "win_tasks")
                (get_offset_safe vmi "win_pid") (get_offset_safe vmi "win_pname")
                fuel list_head 0) as Hq.
  fold (process_walk vmi list_head fuel) in Hq.
  destruct (walk_stop _); cbn [snd]; rewrite !Forall_app; split_and?;
    by repeat constructor.
Qed.

Lemma enumerate_modules_quiet vmi fuel :
  destroy_count (enumerate_modules vmi fuel).2 = 0%nat.
Proof.
  apply destroy_count_quiet. unfold enumerate_modules.
  destruct (vmi_read_addr_ksym vmi _) as [list_head|]; [|by repeat constructor].
  pose proof (module_loop_quiet vmi list_head (get_offset_safe vmi "win_tasks")
                (get_offset_safe vmi "win_pid") (get_offset_safe vmi "win_pname")
                fuel list_head 0) as Hq.
  destruct (walk_stop _); cbn [snd]; rewrite !Forall_app; split_and?;
    by repeat constructor.
Qed.

Lemma enumerate_threads_quiet vmi fuel :
  destroy_count (enumerate_threads vmi fuel).2 = 0%nat.
Proof.
  apply destroy_count_quiet. unfold enumerate_threads.
  destruct (vmi_read_addr_ksym vmi _) as [list_head|]; [|by repeat constructor].
  pose proof (thread_loop_quiet vmi list_head (get_offset_safe vmi "win_tasks")
                (get_offset_safe vmi "win_pid") (get_offset_safe vmi "win_pname")
                fuel list_head 0) as Hq.
  destruct (walk_stop _); cbn [snd]; rewrite !Forall_app; split_and?;
    by repeat constructor.
Qed.

(** The [cleanup:] label releases a session that is held, once. *)
Lemma main_cleanup_released g_vmi result out :
  destroy_count out = 0%nat →
  released_once (bool_decide (is_Some g_vmi)) (main_cleanup g_vmi result out).
Proof.
  intros Hout. unfold released_once, main_cleanup.
  destruct g_vmi as [vmi|]; cbn [cleanup_vmi trace final_g_vmi exit_status].
  - rewrite destroy_count_app, Hout. rewrite bool_decide_eq_true_2 by eauto.
    split; [done|]. intros _. split_and!; [done|done|].
    intros _. by rewrite last_snoc.
  - rewrite destroy_count_app, Hout. rewrite bool_decide_eq_false_2 by by intros [? ?].
    change (destroy_count []) with 0%nat.
    split; [lia|]. intros _. split_and!; done.
Qed.

(** A stage of [main] that holds the session releases it once if it
    exits, provided what follows it does. *)
Lemma main_stage_released vmi out p failed next :
  destroy_count out = 0%nat →
  destroy_count p.2 = 0%nat →
  (∀ out', destroy_count out' = 0%nat → released_once true (next out')) →
  released_once true (main_stage (Some vmi) out p failed next).
Proof.
  intros Hout Hp Hnext. destruct p as [[result|] o]; cbn [snd main_stage] in *.
  - destruct (decide (result ≠ DEMO_SUCCESS)).
    + pose proof (main_cleanup_released (Some vmi) result (out ++ o ++ [EText failed]))
        as Hc.
      rewrite bool_decide_eq_true_2 in Hc by eauto. apply Hc.
      rewrite !destroy_count_app, Hout, Hp. done.
    + apply Hnext. by rewrite destroy_count_app, Hout, Hp.
  - unfold released_once. cbn [trace exit_status].
    rewrite destroy_count_app, Hout, Hp. split; [lia|]. by intros [? ?].
Qed.

(** [main] exits unless one of the passes it runs is still walking when
    the fuel runs out. *)
Lemma main_stage_exit g_vmi out p failed next :
  exit_status (main_stage g_vmi out p failed next) = None
  ↔ p.1 = None
    ∨ (p.1 = Some DEMO_SUCCESS ∧ exit_status (next (out ++ p.2)) = None).
Proof.
  destruct p as [[result|] o]; cbn [fst snd main_stage].
  - destruct (decide (result ≠ DEMO_SUCCESS)) as [Hne|Heq].
    + unfold main_cleanup. destruct (cleanup_vmi g_vmi). cbn [exit_status].
      split; [done|]. intros [?|[? _]]; [done|]. by simplify_eq.
    + assert (result = DEMO_SUCCESS) as ->
        by (destruct (decide (result = DEMO_SUCCESS)); [done|by destruct Heq]).
      split; [by right|]. by intros [|[_ ?]].
  - cbn [exit_status]. split; [by left|done].
Qed.

(** C10: on every path of [main] the session is released at most once;
    a run that exits (normal completion, failed initialisation, or early
    termination after a failed stage) has called [vmi_destroy] exactly
    once if [initialize_vmi] had acquired a session, as its last action,
    and not at all otherwise, and leaves [g_vmi] cleared.  [main] does
    exit when the initialisation fails, and otherwise unless one of the
    passes it runs is still walking the list when the fuel runs out. *)
Theorem session_released_exactly_once init argv fuel :
  released_once (bool_decide (is_Some (init (domain_of argv)))) (main init argv fuel)
  ∧ (init (domain_of argv) = None →
     exit_status (main init argv fuel) = Some EXIT_FAILURE)
  ∧ (∀ vmi, init (domain_of argv) = Some vmi →
       (exit_status (main init argv fuel) = None
        ↔ (enumerate_processes vmi fuel).1 = None
          ∨ ((enumerate_processes vmi fuel).1 = Some DEMO_SUCCESS
             ∧ ((enumerate_modules vmi fuel).1 = None
                ∨ ((enumerate_modules vmi fuel).1 = Some DEMO_SUCCESS
                   ∧ (enumerate_threads vmi fuel).1 = None))))).
Proof.
  unfold main, initialize_vmi. fold (domain_of argv).
  destruct (init (domain_of argv)) as [vmi|] eqn:Hinit.
  - rewrite bool_decide_eq_true_2 by eauto. cbn beta iota zeta.
    rewrite (decide_False (P := DEMO_SUCCESS ≠ DEMO_SUCCESS)) by (by intros ?).
    split_and!; [|done|].
    + apply main_stage_released; [done|apply enumerate_processes_quiet|].
      intros out1 Hout1.
      apply main_stage_released; [done|apply enumerate_modules_quiet|].
      intros out2 Hout2.
      apply main_stage_released; [done|apply enumerate_threads_quiet|].
      intros out3 Hout3.
      pose proof (main_cleanup_released (Some vmi) DEMO_SUCCESS out3 Hout3) as Hc.
      by rewrite bool_decide_eq_true_2 in Hc by eauto.
    + intros vmi' [= <-]. rewrite !main_stage_exit.
      unfold main_cleanup. cbn [cleanup_vmi exit_status].
      intuition congruence.
  - rewrite bool_decide_eq_false_2 by (by intros [? ?]). cbn beta iota zeta.
    rewrite (decide_True (P := DEMO_ERROR_INIT ≠ DEMO_SUCCESS)) by done.
    split_and!; [|done|done].
    pose proof (main_cleanup_released None DEMO_ERROR_INIT
                  (([EBanner (domain_of argv)] ++ [EInitFailed (domain_of argv)])
                   ++ [EInitHelp (domain_of argv)]) eq_refl) as Hc.
    by rewrite bool_decide_eq_false_2 in Hc by (by intros [? ?]).
Qed.

(** The three kinds of exit, on example guests: normal completion, a
    domain that is not running, and early termination after the failed
    process pass. *)
Example session_released_paths :
  exit_status (main (host_of guest_abc) ["vmi_demo"] 3) = Some EXIT_SUCCESS
  ∧ destroy_count (trace (main (host_of guest_abc) ["vmi_demo"] 3)) = 1%nat
  ∧ final_g_vmi (main (host_of guest_abc) ["vmi_demo"] 3) = None
  ∧ main (host_of guest_abc) ["vmi_demo"; "other-vm"] 3
    = Run (Some EXIT_FAILURE) None
          [EBanner "other-vm"; EInitFailed "other-vm"; EInitHelp "other-vm"]
  ∧ exit_status (main (host_of guest_no_pid) ["vmi_demo"] 3) = Some EXIT_FAILURE
  ∧ destroy_count (trace (main (host_of guest_no_pid) ["vmi_demo"] 3)) = 1%nat.
Proof. split_and!; vm_compute; reflexivity. Qed.

(** * Further properties of the passes and of [main] *)

(** ** The three walks compared *)

(** The thread loop follows the link fields exactly as the process loop
    does. *)
Lemma thread_loop_links vmi list_head t p n p' n' fuel :
  ∀ current total count,
  walk_stop (thread_loop vmi list_head t p n fuel current total)
  = walk_stop (process_loop vmi list_head t p' n' fuel current count)
  ∧ walk_nodes (thread_loop vmi list_head t p n fuel current total)
    = walk_nodes (process_loop vmi list_head t p' n' fuel current count).
Proof.
  induction fuel as [|fuel IH]; intros current total count; [done|].
  cbn [thread_loop process_loop].
  destruct (match read_process vmi (wrap64 (current - t)) p n with
            | Some p0 => thread_analysis vmi p0 total
            | None => (total, [])
            end) as [total' out].
  destruct (vmi_read_addr_va vmi _) as [next|];
    [destruct (decide (next = list_head))|]; cbn [walk_stop walk_nodes]; try done.
  edestruct IH as [-> ->]. done.
Qed.

Lemma module_count_app out1 out2 :
  module_count (out1 ++ out2) = (module_count out1 + module_count out2)%nat.
Proof. unfold module_count. by rewrite filter_app, length_app. Qed.

Lemma module_count_cons e out :
  module_count (e :: out)
  = ((if is_module_process e then 1 else 0) + module_count out)%nat.
Proof.
  unfold module_count. rewrite filter_cons.
  by destruct (is_module_process e); [rewrite decide_True|rewrite decide_False].
Qed.

(** The analysis of a node entered below the ceiling: one
    [EModuleProcess] line per increment of [total_analyzed]. *)
Lemma module_analysis_count vmi p0 total :
  0 ≤ total < 10 →
  total ≤ (module_analysis vmi p0 total).1 ≤ 10
  ∧ (module_analysis vmi p0 total).1
    = total + Z.of_nat (module_count (module_analysis vmi p0 total).2).
Proof.
  intros Ht. unfold module_analysis.
  destruct (_ && _); cbn [fst snd].
  - rewrite wrap32_small by lia. rewrite module_count_cons. cbn [is_module_process].
    destruct (vmi_read_32_va vmi _);
      rewrite ?module_count_cons; change (module_count []) with 0%nat;
      cbn [is_module_process]; lia.
  - change (module_count []) with 0%nat. lia.
Qed.

(** The module loop walks a prefix of what the process loop walks: the
    same nodes for the same reason, unless it stops early because ten
    processes have been analysed. *)
Lemma module_loop_links vmi list_head t p n p' n' fuel :
  ∀ current total count,
  0 ≤ total < 10 →
  walk_nodes (module_loop vmi list_head t p n fuel current total)
    `prefix_of` walk_nodes (process_loop vmi list_head t p' n' fuel current count)
  ∧ total ≤ walk_count (module_loop vmi list_head t p n fuel current total) ≤ 10
  ∧ walk_count (module_loop vmi list_head t p n fuel current total)
    = total + Z.of_nat (module_count
                          (walk_out (module_loop vmi list_head t p n fuel current total)))
  ∧ (walk_stop (module_loop vmi list_head t p n fuel current total) = Some AnalysisCap →
     walk_count (module_loop vmi list_head t p n fuel current total) = 10)
  ∧ (walk_stop (module_loop vmi list_head t p n fuel current total) ≠ Some AnalysisCap →
     walk_stop (module_loop vmi list_head t p n fuel current total)
     = walk_stop (process_loop vmi list_head t p' n' fuel current count)
     ∧ walk_nodes (module_loop vmi list_head t p n fuel current total)
       = walk_nodes (process_loop vmi list_head t p' n' fuel current count)).
Proof.
  induction fuel as [|fuel IH]; intros current total count Ht.
  { cbn [module_loop process_loop walk_nodes walk_count walk_out walk_stop].
    change (module_count []) with 0%nat. split_and!; try done; lia. }
  cbn [module_loop process_loop].
  assert (∃ total' out,
    match read_process vmi (wrap64 (current - t)) p n with
    | Some p0 => module_analysis vmi p0 total
    | None => (total, [])
    end = (total', out) ∧ total ≤ total' ≤ 10
    ∧ total' = total + Z.of_nat (module_count out))
    as (total' & out & -> & Hrange & Hcount).
  { destruct (read_process vmi _ p n) as [p0|].
    - pose proof (module_analysis_count vmi p0 total Ht).
      destruct (module_analysis vmi p0 total) as [total' out]. by exists total', out.
    - exists total, []. change (module_count []) with 0%nat. split_and!; [done|lia..]. }
  destruct (vmi_read_addr_va vmi _) as [next|];
    [destruct (decide (next = list_head)); [|destruct (decide (total' < 10))]|];
    cbn [walk_stop walk_nodes walk_count walk_out];
    try (split_and!; [done|lia..|done|done]).
  - destruct (IH next total'
                (match read_process vmi (wrap64 (current - t)) p' n' with
                 | Some _ => wrap32 (count + 1) | None => count end))
      as (Hpre & Hr & Hc & Hcap & Hsame); [lia|].
    rewrite module_count_app.
    split_and!; [by apply prefix_cons|lia..|done|].
    intros Hne. destruct (Hsame Hne) as [-> ->]. done.
  - split_and!; [|lia..|lia|done].
    apply prefix_cons, prefix_nil.
Qed.

(** X1: the thread pass walks the guest list exactly as the process pass
    does: after any number of iterations it has visited the same nodes and
    has stopped, or not, for the same reason; so it returns exactly when
    the walk of the process pass ends. *)
Theorem thread_pass_walks_process_list vmi list_head fuel :
  walk_stop (thread_walk vmi list_head fuel) = walk_stop (process_walk vmi list_head fuel)
  ∧ walk_nodes (thread_walk vmi list_head fuel)
    = walk_nodes (process_walk vmi list_head fuel)
  ∧ (vmi_read_addr_ksym vmi "PsActiveProcessHead" = Some list_head →
     ((enumerate_threads vmi fuel).1 = None
      ↔ walk_stop (process_walk vmi list_head fuel) = None)).
Proof.
  pose proof (thread_loop_links vmi list_head (get_offset_safe vmi "win_tasks")
                (get_offset_safe vmi "win_pid") (get_offset_safe vmi "win_pname")
                (get_offset_safe vmi "win_pid") (get_offset_safe vmi "win_pname")
                fuel list_head 0 0) as [Hstop Hnodes].
  fold (thread_walk vmi list_head fuel) in Hstop, Hnodes.
  fold (process_walk vmi list_head fuel) in Hstop, Hnodes.
  split_and!; [done|done|].
  intros Hhead. unfold enumerate_threads. rewrite Hhead.
  fold (thread_walk vmi list_head fuel). rewrite <- Hstop.
  by destruct (walk_stop _).
Qed.

(** X2: the module pass walks a prefix of the nodes the process pass
    walks.  It stops early only when ten processes have been analysed, and
    then exactly ten [EModuleProcess] lines have been printed; otherwise it
    visits the same nodes and stops for the same reason as the process
    pass. *)
Theorem module_pass_walks_prefix vmi list_head fuel :
  walk_nodes (module_walk vmi list_head fuel)
    `prefix_of` walk_nodes (process_walk vmi list_head fuel)
  ∧ (walk_stop (module_walk vmi list_head fuel) = Some AnalysisCap →
     walk_count (module_walk vmi list_head fuel) = 10
     ∧ module_count (walk_out (module_walk vmi list_head fuel)) = 10%nat)
  ∧ (walk_stop (module_walk vmi list_head fuel) ≠ Some AnalysisCap →
     walk_stop (module_walk vmi list_head fuel)
     = walk_stop (process_walk vmi list_head fuel)
     ∧ walk_nodes (module_walk vmi list_head fuel)
       = walk_nodes (process_walk vmi list_head fuel)).
Proof.
  destruct (module_loop_links vmi list_head (get_offset_safe vmi "win_tasks")
              (get_offset_safe vmi "win_pid") (get_offset_safe vmi "win_pname")
              (get_offset_safe vmi "win_pid") (get_offset_safe vmi "win_pname")
              fuel list_head 0 0) as (Hpre & Hr & Hc & Hcap & Hsame); [lia|].
  fold (module_walk vmi list_head fuel) in *.
  fold (process_walk vmi list_head fuel) in *.
  split_and!; [done| |done].
  intros Hstop. specialize (Hcap Hstop). split; [done|lia].
Qed.

(** Twelve analysable processes: the module pass stops after the tenth
    node, the process and thread passes visit all twelve. *)
Example module_pass_walks_prefix_dozen :
  walk_stop (module_walk guest_dozen 0x1188 20) = Some AnalysisCap
  ∧ length (walk_nodes (module_walk guest_dozen 0x1188 20)) = 10%nat
  ∧ walk_stop (process_walk guest_dozen 0x1188 20) = Some CycleClosed
  ∧ length (walk_nodes (process_walk guest_dozen 0x1188 20)) = 12%nat
  ∧ length (walk_nodes (thread_walk guest_dozen 0x1188 20)) = 12%nat.
Proof. split_and!; vm_compute; reflexivity. Qed.

(** ** [strstr] *)

Lemma prefix_spec needle :
  ∀ haystack,
  String.prefix needle haystack = true ↔ ∃ after, haystack = needle +:+ after.
Proof.
  induction needle as [|a needle IH]; intros [|b haystack]; cbn [String.prefix].
  - split; [intros _; by exists EmptyString|done].
  - split; [intros _; by exists (String b haystack)|done].
  - split; [done|]. by intros [after ?].
  - destruct (Ascii.ascii_dec a b) as [->|Hne].
    + rewrite IH. split; intros [after Hafter]; exists after.
      * cbn [String.append]. by rewrite Hafter.
      * cbn [String.append] in Hafter. by injection Hafter.
    + split; [done|]. intros [after Hafter].
      cbn [String.append] in Hafter. by injection Hafter.
Qed.

Lemma strstr_spec needle :
  ∀ haystack, strstr haystack needle = true ↔ is_substring needle haystack.
Proof.
  unfold is_substring.
  induction haystack as [|a haystack IH]; cbn [strstr].
  - rewrite orb_false_r, prefix_spec. split.
    + intros [after ->]. by exists EmptyString, after.
    + intros ([|b before] & after & Heq); [by exists after|done].
  - rewrite orb_true_iff, IH, prefix_spec. split.
    + intros [[after Heq]|(before & after & Heq)].
      * by exists EmptyString, after.
      * exists (String a before), after. simpl. by rewrite Heq.
    + intros ([|b before] & after & Heq).
      * left. by exists after.
      * right. injection Heq as -> ->. by exists before, after.
Qed.

(** ** The lines of the module pass *)

Lemma module_analysis_ok vmi p0 total :
  Forall (module_line_ok vmi) (module_analysis vmi p0 total).2.
Proof.
  unfold module_analysis.
  destruct (bool_decide (100 < pid p0)) eqn:Hpid; [|by constructor].
  destruct (strstr (name p0) ".exe" || strstr (name p0) "explorer") eqn:Hname;
    [|by constructor].
  cbn [andb snd].
  apply bool_decide_eq_true in Hpid.
  apply orb_true_iff in Hname. rewrite !strstr_spec in Hname.
  constructor; [done|].
  destruct (vmi_read_32_va vmi _) as [test_value|] eqn:Hread; [|by constructor].
  constructor; [|by constructor]. by eexists.
Qed.

Lemma module_loop_ok vmi list_head t p n fuel :
  ∀ current total,
  Forall (module_line_ok vmi)
         (walk_out (module_loop vmi list_head t p n fuel current total)).
Proof.
  induction fuel as [|fuel IH]; intros current total; [by constructor|].
  cbn [module_loop].
  assert (∃ total' out,
    match read_process vmi (wrap64 (current - t)) p n with
    | Some p0 => module_analysis vmi p0 total
    | None => (total, [])
    end = (total', out) ∧ Forall (module_line_ok vmi) out)
    as (total' & out & -> & Hout).
  { destruct (read_process vmi _ p n) as [p0|]; [|by exists total, []].
    pose proof (module_analysis_ok vmi p0 total).
    destruct (module_analysis vmi p0 total) as [total' out]. by exists total', out. }
  destruct (vmi_read_addr_va vmi _) as [next|];
    [destruct (decide (next = list_head)); [|destruct (decide (total' < 10))]|];
    cbn [walk_out]; try done.
  apply Forall_app. split; [done|apply IH].
Qed.

Lemma enumerate_modules_error vmi fuel :
  (enumerate_modules vmi fuel).1 = Some DEMO_ERROR_PROCESS
  ↔ vmi_read_addr_ksym vmi "PsActiveProcessHead" = None.
Proof.
  unfold enumerate_modules.
  destruct (vmi_read_addr_ksym vmi "PsActiveProcessHead"); [|done].
  by destruct (walk_stop _).
Qed.

(** X3: the module pass analyses a process only when its pid is above
    100 and its name contains [.exe] or [explorer]; a test word is printed
    only when the test read succeeded; at most ten processes are analysed,
    and on success the last line gives their number.  The pass fails only
    when the head symbol cannot be read, never for an offset. *)
Theorem module_pass_lines vmi fuel :
  Forall (module_line_ok vmi) (enumerate_modules vmi fuel).2
  ∧ (module_count (enumerate_modules vmi fuel).2 ≤ 10)%nat
  ∧ ((enumerate_modules vmi fuel).1 = Some DEMO_SUCCESS →
     last (enumerate_modules vmi fuel).2
     = Some (EModulesAnalyzed (Z.of_nat (module_count (enumerate_modules vmi fuel).2))))
  ∧ ((enumerate_modules vmi fuel).1 = Some DEMO_ERROR_PROCESS
     ↔ vmi_read_addr_ksym vmi "PsActiveProcessHead" = None).
Proof.
  split_and!; [| | |apply enumerate_modules_error];
    unfold enumerate_modules;
    (destruct (vmi_read_addr_ksym vmi "PsActiveProcessHead") as [list_head|];
     [|first [done | by repeat constructor]]);
    fold (module_walk vmi list_head fuel);
    destruct (module_loop_links vmi list_head (get_offset_safe vmi "win_tasks")
                (get_offset_safe vmi "win_pid") (get_offset_safe vmi "win_pname")
                (get_offset_safe vmi "win_pid") (get_offset_safe vmi "win_pname")
                fuel list_head 0 0) as (_ & Hr & Hc & _); try lia;
    fold (module_walk vmi list_head fuel) in Hr, Hc;
    pose proof (module_loop_ok vmi list_head (get_offset_safe vmi "win_tasks")
                  (get_offset_safe vmi "win_pid") (get_offset_safe vmi "win_pname")
                  fuel list_head 0) as Hok;
    fold (module_walk vmi list_head fuel) in Hok.
  - destruct (walk_stop _); cbn [snd]; rewrite !Forall_app; split_and!;
      try done; try by repeat constructor.
    constructor; [|done]. cbn. rewrite to_int32_small by lia. lia.
  - destruct (walk_stop _); cbn [snd]; rewrite !module_count_app;
      unfold module_header; rewrite !module_count_cons;
      change (module_count []) with 0%nat; cbn [is_module_process]; lia.
  - destruct (walk_stop _); [|done]. intros _. cbn [snd].
    rewrite !app_assoc, last_snoc. do 2 f_equal.
    rewrite <- !app_assoc, !module_count_app.
    unfold module_header; rewrite !module_count_cons;
      change (module_count []) with 0%nat; cbn [is_module_process].
    rewrite to_int32_small by lia. lia.
Qed.

(** ** The lines of the thread pass *)

Lemma scan_hit_Some vmi b o e :
  scan_hit vmi b o = Some e →
  ∃ ptr, vmi_read_addr_va vmi (wrap64 (b + o)) = Some ptr
         ∧ is_kernel_pointer ptr = true ∧ e = EThreadPointer o ptr.
Proof.
  unfold scan_hit. destruct (vmi_read_addr_va vmi _) as [ptr|]; [|done].
  destruct (is_kernel_pointer ptr) eqn:Hptr; [|done]. intros [= <-]. eauto.
Qed.

Lemma scan_hit_None vmi b o :
  scan_hit vmi b o = None → kernel_pointer_at vmi b o = false.
Proof.
  unfold scan_hit, kernel_pointer_at.
  destruct (vmi_read_addr_va vmi _) as [ptr|]; [|done].
  by destruct (is_kernel_pointer ptr).
Qed.

(** The scan over the offsets [l], entered with [thread_count = c]: it
    adds the number of hits to [thread_count], and prints the hits that
    bring the count to at most three. *)
Lemma thread_scan_fold_hits vmi b l :
  ∀ c out,
  0 ≤ c → c + Z.of_nat (length l) < 2 ^ 32 →
  foldl (thread_scan_step vmi b) (c, out) l
  = (c + Z.of_nat (length (omap (scan_hit vmi b) l)),
     out ++ take (Z.to_nat (3 - c)) (omap (scan_hit vmi b) l)).
Proof.
  induction l as [|o l IH]; intros c out Hc Hlen.
  { cbn. rewrite take_nil, app_nil_r. f_equal. lia. }
  cbn [foldl omap list_omap length] in *.
  destruct (scan_hit vmi b o) as [e|] eqn:Hhit.
  - apply scan_hit_Some in Hhit as (ptr & Hread & Hptr & ->).
    rewrite (thread_scan_step_hit vmi b (c, out) o ptr Hread Hptr).
    cbn [fst snd]. rewrite wrap32_small by lia.
    rewrite IH by lia. cbn [length]. f_equal; [lia|].
    destruct (decide (c + 1 ≤ 3)).
    + replace (Z.to_nat (3 - c)) with (S (Z.to_nat (3 - (c + 1)))) by lia.
      cbn [take]. by rewrite <- app_assoc.
    + replace (Z.to_nat (3 - c)) with 0%nat by lia.
      replace (Z.to_nat (3 - (c + 1))) with 0%nat by lia.
      by rewrite !take_0.
  - apply scan_hit_None in Hhit.
    rewrite (thread_scan_step_miss vmi b (c, out) o Hhit). apply IH; lia.
Qed.

Lemma thread_scan_hits vmi b :
  thread_scan vmi b = (Z.of_nat (length (scan_hits vmi b)), take 3 (scan_hits vmi b)).
Proof.
  unfold thread_scan, scan_hits.
  rewrite thread_scan_fold_hits; [done|lia|by vm_compute].
Qed.

Lemma scan_hits_length vmi b : (length (scan_hits vmi b) ≤ 22)%nat.
Proof.
  assert (∀ l, length (omap (scan_hit vmi b) l) ≤ length l)%nat as Hle.
  { induction l as [|o l IH]; [done|]. cbn [omap list_omap length].
    destruct (scan_hit vmi b o); cbn [length]; lia. }
  unfold scan_hits. specialize (Hle scan_offsets).
  by replace (length scan_offsets) with 22%nat in Hle by (vm_compute; reflexivity).
Qed.


(** On [guest_pointers] 21 of the 22 scanned words are kernel pointers
    (the link field itself is not): three samples, then the estimate. *)
Example thread_analysis_block_pointers :
  (enumerate_threads guest_pointers 3).2
  = thread_header
    ++ [EThreadProcess 300 "svchost.exe";
        EThreadPointer 0x150 0xfffff80000001150;
        EThreadPointer 0x158 0xfffff80000001158;
        EThreadPointer 0x160 0xfffff80000001160;
        EThreadEstimate 21; EThreadsAnalyzed 1].
Proof. vm_compute. reflexivity. Qed.

Lemma thread_analysis_ok vmi p0 total :
  Forall thread_line_ok (thread_analysis vmi p0 total).2.
Proof.
  unfold thread_analysis.
  destruct (bool_decide (4 < pid p0)) eqn:Hpid; [|by constructor].
  destruct (bool_decide (total < 10)); [|by constructor].
  apply bool_decide_eq_true in Hpid. cbn [andb].
  destruct (thread_scan_spec vmi (eprocess_addr p0)) as (_ & Hrange & _ & Hall).
  destruct (thread_scan vmi (eprocess_addr p0)) as [thread_count samples].
  cbn [fst snd] in *. constructor; [done|]. apply Forall_app. split.
  - eapply Forall_impl; [exact Hall|]. by intros e (o & ptr & -> & ? & _ & ?).
  - constructor; [|done]. destruct (decide (0 < thread_count)); [|done].
    cbn. rewrite to_int32_small by lia. lia.
Qed.

Lemma thread_loop_ok vmi list_head t p n fuel :
  ∀ current total,
  Forall thread_line_ok (walk_out (thread_loop vmi list_head t p n fuel current total)).
Proof.
  induction fuel as [|fuel IH]; intros current total; [by constructor|].
  cbn [thread_loop].
  assert (∃ total' out,
    match read_process vmi (wrap64 (current - t)) p n with
    | Some p0 => thread_analysis vmi p0 total
    | None => (total, [])
    end = (total', out) ∧ Forall thread_line_ok out)
    as (total' & out & -> & Hout).
  { destruct (read_process vmi _ p n) as [p0|]; [|by exists total, []].
    pose proof (thread_analysis_ok vmi p0 total).
    destruct (thread_analysis vmi p0 total) as [total' out]. by exists total', out. }
  destruct (vmi_read_addr_va vmi _) as [next|];
    [destruct (decide (next = list_head))|]; cbn [walk_out]; try done.
  apply Forall_app. split; [done|apply IH].
Qed.

(** X5: what the thread pass prints.  Every process line has a pid above
    4, every sample is a kernel pointer found at a scanned offset, every
    estimate is between 1 and 22, and nothing else is printed besides the
    header, the "accessible" lines, an error for the head symbol and the
    final count; on success the last line gives the number of processes
    analysed, which is the number of process lines printed. *)
Theorem thread_pass_lines vmi fuel :
  Forall thread_line_ok (enumerate_threads vmi fuel).2
  ∧ ((enumerate_threads vmi fuel).1 = Some DEMO_SUCCESS →
     last (enumerate_threads vmi fuel).2
     = Some (EThreadsAnalyzed
               (Z.of_nat (analyzed_count (enumerate_threads vmi fuel).2)))).
Proof.
  unfold enumerate_threads.
  destruct (vmi_read_addr_ksym vmi "PsActiveProcessHead") as [list_head|];
    [|split; [by repeat constructor|done]].
  pose proof (thread_loop_count vmi list_head (get_offset_safe vmi "win_tasks")
                (get_offset_safe vmi "win_pid") (get_offset_safe vmi "win_pname")
                fuel list_head 0 ltac:(lia)) as [Hr Hcount].
  pose proof (thread_loop_ok vmi list_head (get_offset_safe vmi "win_tasks")
                (get_offset_safe vmi "win_pid") (get_offset_safe vmi "win_pname")
                fuel list_head 0) as Hok.
  fold (thread_walk vmi list_head fuel) in *.
  destruct (walk_stop _); cbn [fst snd]; (split; [|try done]).
  - rewrite !Forall_app. split_and!; try done; try by repeat constructor.
    constructor; [|done]. cbn. rewrite to_int32_small by lia. lia.
  - intros _. rewrite !app_assoc, last_snoc. do 2 f_equal.
    rewrite <- !app_assoc, !analyzed_count_app.
    unfold thread_header; rewrite !analyzed_count_cons;
      change (analyzed_count []) with 0%nat; cbn [is_thread_process].
    rewrite to_int32_small by lia. lia.
  - rewrite !Forall_app. split_and!; try done; by repeat constructor.
Qed.

(** ** The outcome of [main] *)

(** [main] once the session is open: the three stages in turn. *)
Lemma main_stages init argv vmi fuel :
  init (domain_of argv) = Some vmi →
  main init argv fuel
  = main_stage (Some vmi) (main_prologue (domain_of argv))
      (enumerate_processes vmi fuel) "ERROR: Process enumeration failed\n" (λ out,
    main_stage (Some vmi) out
      (enumerate_modules vmi fuel) "ERROR: Module analysis failed\n" (λ out,
    main_stage (Some vmi) out
      (enumerate_threads vmi fuel) "ERROR: Thread analysis failed\n" (λ out,
    main_cleanup (Some vmi) DEMO_SUCCESS out))).
Proof.
  intros Hinit. unfold main, initialize_vmi. fold (domain_of argv).
  rewrite Hinit. cbn beta iota zeta.
  by rewrite (decide_False (P := DEMO_SUCCESS ≠ DEMO_SUCCESS)) by (by intros ?).
Qed.

Lemma main_init_failure init argv fuel :
  init (domain_of argv) = None →
  main init argv fuel
  = Run (Some EXIT_FAILURE) None
        [EBanner (domain_of argv); EInitFailed (domain_of argv);
         EInitHelp (domain_of argv)].
Proof.
  intros Hinit. unfold main, initialize_vmi. fold (domain_of argv).
  rewrite Hinit. cbn beta iota zeta.
  by rewrite (decide_True (P := DEMO_ERROR_INIT ≠ DEMO_SUCCESS)).
Qed.

(** A stage that does not succeed decides the exit status; one that
    succeeds hands over to what follows. *)
Lemma main_stage_success g_vmi out p failed next :
  exit_status (main_stage g_vmi out p failed next) = Some EXIT_SUCCESS
  ↔ p.1 = Some DEMO_SUCCESS ∧ exit_status (next (out ++ p.2)) = Some EXIT_SUCCESS.
Proof.
  destruct p as [[result|] o]; cbn [fst snd main_stage]; [|by intuition].
  destruct (decide (result ≠ DEMO_SUCCESS)) as [Hne|Heq].
  - unfold main_cleanup. destruct (cleanup_vmi g_vmi). cbn [exit_status].
    rewrite decide_False by done. split; [done|]. intros [[= ->] _]. done.
  - assert (result = DEMO_SUCCESS) as ->
      by (destruct (decide (result = DEMO_SUCCESS)); [done|by destruct Heq]).
    by intuition.
Qed.

Lemma main_stage_trace g_vmi out o failed next :
  main_stage g_vmi out (Some DEMO_SUCCESS, o) failed next = next (out ++ o).
Proof. cbn [main_stage]. by rewrite decide_False by (by intros ?). Qed.

Lemma main_stage_code g_vmi out p failed next code :
  (∀ out' code', exit_status (next out') = Some code' →
                 code' = EXIT_SUCCESS ∨ code' = EXIT_FAILURE) →
  exit_status (main_stage g_vmi out p failed next) = Some code →
  code = EXIT_SUCCESS ∨ code = EXIT_FAILURE.
Proof.
  intros Hnext. destruct p as [[result|] o]; cbn [main_stage]; [|done].
  destruct (decide (result ≠ DEMO_SUCCESS)); [|apply Hnext].
  unfold main_cleanup. destruct (cleanup_vmi g_vmi). cbn [exit_status].
  destruct (decide (result = DEMO_SUCCESS)); intros [= <-]; auto.
Qed.

Lemma main_success init argv fuel :
  exit_status (main init argv fuel) = Some EXIT_SUCCESS
  ↔ ∃ vmi, init (domain_of argv) = Some vmi
           ∧ (enumerate_processes vmi fuel).1 = Some DEMO_SUCCESS
           ∧ (enumerate_modules vmi fuel).1 = Some DEMO_SUCCESS
           ∧ (enumerate_threads vmi fuel).1 = Some DEMO_SUCCESS.
Proof.
  destruct (init (domain_of argv)) as [vmi|] eqn:Hinit.
  - rewrite (main_stages init argv vmi fuel Hinit), !main_stage_success.
    unfold main_cleanup. cbn [cleanup_vmi exit_status]. split.
    + intros (? & ? & ? & _). by exists vmi.
    + intros (vmi' & [= <-] & ? & ? & ?). by rewrite decide_True.
  - rewrite (main_init_failure init argv fuel Hinit). cbn [exit_status].
    split; [done|]. by intros (vmi & ? & _).
Qed.

(** X6: the exit status of [main] is [EXIT_SUCCESS] or [EXIT_FAILURE]; it
    is [EXIT_SUCCESS] exactly when the session was opened and the process,
    module and thread passes all returned [DEMO_SUCCESS], and the run is
    then the three passes in this order, each once, followed by the release
    of the session.  When the session cannot be opened no pass runs:
    [main] prints the banner, the failure and the advice, and exits with
    [EXIT_FAILURE]. *)
Theorem main_exit_status init argv fuel :
  (∀ code, exit_status (main init argv fuel) = Some code →
           code = EXIT_SUCCESS ∨ code = EXIT_FAILURE)
  ∧ (exit_status (main init argv fuel) = Some EXIT_SUCCESS
     ↔ ∃ vmi, init (domain_of argv) = Some vmi
              ∧ (enumerate_processes vmi fuel).1 = Some DEMO_SUCCESS
              ∧ (enumerate_modules vmi fuel).1 = Some DEMO_SUCCESS
              ∧ (enumerate_threads vmi fuel).1 = Some DEMO_SUCCESS)
  ∧ (∀ vmi, init (domain_of argv) = Some vmi →
       (enumerate_processes vmi fuel).1 = Some DEMO_SUCCESS →
       (enumerate_modules vmi fuel).1 = Some DEMO_SUCCESS →
       (enumerate_threads vmi fuel).1 = Some DEMO_SUCCESS →
       main init argv fuel
       = Run (Some EXIT_SUCCESS) None
             (main_prologue (domain_of argv)
              ++ (enumerate_processes vmi fuel).2 ++ (enumerate_modules vmi fuel).2
              ++ (enumerate_threads vmi fuel).2 ++ [EVmiDestroy]))
  ∧ (init (domain_of argv) = None →
     main init argv fuel
     = Run (Some EXIT_FAILURE) None
           [EBanner (domain_of argv); EInitFailed (domain_of argv);
            EInitHelp (domain_of argv)]).
Proof.
  split_and!.
  - intros code. destruct (init (domain_of argv)) as [vmi|] eqn:Hinit.
    + rewrite (main_stages init argv vmi fuel Hinit).
      apply main_stage_code. intros out1 code1.
      apply main_stage_code. intros out2 code2.
      apply main_stage_code. intros out3 code3.
      unfold main_cleanup. cbn [cleanup_vmi exit_status].
      intros [= <-]. by left.
    + rewrite (main_init_failure init argv fuel Hinit). intros [= <-]. by right.
  - apply main_success.
  - intros vmi Hinit Hp Hm Ht. rewrite (main_stages init argv vmi fuel Hinit).
    destruct (enumerate_processes vmi fuel) as [r1 o1].
    destruct (enumerate_modules vmi fuel) as [r2 o2].
    destruct (enumerate_threads vmi fuel) as [r3 o3].
    cbn [fst snd] in *. subst. rewrite !main_stage_trace.
    unfold main_cleanup. cbn [cleanup_vmi].
    by rewrite <- !app_assoc.
  - apply main_init_failure.
Qed.

(** A process pass that returned [DEMO_SUCCESS] found the head and ended
    its walk. *)
Lemma enumerate_processes_success vmi fuel :
  (enumerate_processes vmi fuel).1 = Some DEMO_SUCCESS →
  ∃ list_head, vmi_read_addr_ksym vmi "PsActiveProcessHead" = Some list_head
               ∧ walk_stop (process_walk vmi list_head fuel) ≠ None.
Proof.
  unfold enumerate_processes. destruct (decide _); [done|].
  destruct (vmi_read_addr_ksym vmi "PsActiveProcessHead") as [list_head|]; [|done].
  destruct (walk_stop (process_walk vmi list_head fuel)) eqn:Hstop; [|done].
  intros _. exists list_head. by rewrite Hstop.
Qed.

(** When the walk of the process pass has ended, the module pass and the
    thread pass return [DEMO_SUCCESS] with the same fuel. *)
Lemma later_passes_return vmi list_head fuel :
  vmi_read_addr_ksym vmi "PsActiveProcessHead" = Some list_head →
  walk_stop (process_walk vmi list_head fuel) ≠ None →
  (enumerate_modules vmi fuel).1 = Some DEMO_SUCCESS
  ∧ (enumerate_threads vmi fuel).1 = Some DEMO_SUCCESS.
Proof.
  intros Hhead Hstop. split.
  - unfold enumerate_modules. rewrite Hhead.
    fold (module_walk vmi list_head fuel).
    destruct (module_loop_links vmi list_head (get_offset_safe vmi "win_tasks")
                (get_offset_safe vmi "win_pid") (get_offset_safe vmi "win_pname")
                (get_offset_safe vmi "win_pid") (get_offset_safe vmi "win_pname")
                fuel list_head 0 0) as (_ & _ & _ & _ & Hsame); [lia|].
    fold (module_walk vmi list_head fuel) in Hsame.
    fold (process_walk vmi list_head fuel) in Hsame.
    destruct (walk_stop (module_walk vmi list_head fuel)) eqn:Hm; [done|].
    destruct Hsame as [Heq _]; [done|]. by rewrite <- Heq in Hstop.
  - unfold enumerate_threads. rewrite Hhead.
    pose proof (thread_loop_links vmi list_head (get_offset_safe vmi "win_tasks")
                  (get_offset_safe vmi "win_pid") (get_offset_safe vmi "win_pname")
                  (get_offset_safe vmi "win_pid") (get_offset_safe vmi "win_pname")
                  fuel list_head 0 0) as [Heq _].
    fold (process_walk vmi list_head fuel) in Heq. rewrite Heq.
    by destruct (walk_stop (process_walk vmi list_head fuel)).
Qed.

(** X8: on every well-formed circular list of N nodes, with the offsets
    not zero and the head resolved, [main] given fuel for N iterations runs
    the three passes to completion and exits with [EXIT_SUCCESS], whatever
    the pid, name and scan reads of the nodes do. *)
Theorem main_completes_on_circular_list init argv vmi list_head links fuel :
  init (domain_of argv) = Some vmi →
  get_offset_safe vmi "win_tasks" ≠ 0 →
  get_offset_safe vmi "win_pid" ≠ 0 →
  get_offset_safe vmi "win_pname" ≠ 0 →
  vmi_read_addr_ksym vmi "PsActiveProcessHead" = Some list_head →
  circular_list vmi list_head links →
  (length links ≤ fuel)%nat →
  exit_status (main init argv fuel) = Some EXIT_SUCCESS
  ∧ (enumerate_processes vmi fuel).1 = Some DEMO_SUCCESS
  ∧ (enumerate_modules vmi fuel).1 = Some DEMO_SUCCESS
  ∧ (enumerate_threads vmi fuel).1 = Some DEMO_SUCCESS.
Proof.
  intros Hinit Ht Hp Hn Hhead (Hfirst & Hnd & Haddr & Hchain) Hfuel.
  destruct links as [|l rest]; [done|]. injection Hfirst as ->.
  assert (list_head ∉ rest) as Hnotin by (by apply NoDup_cons_1_1).
  destruct (process_loop_chain vmi list_head (get_offset_safe vmi "win_tasks")
              (get_offset_safe vmi "win_pid") (get_offset_safe vmi "win_pname")
              (Some list_head) rest list_head fuel 0
              Hchain (or_intror eq_refl) Haddr Hnotin Hfuel) as [Hstop _].
  fold (process_walk vmi list_head fuel) in Hstop.
  assert ((enumerate_processes vmi fuel).1 = Some DEMO_SUCCESS) as Hpass.
  { rewrite (enumerate_processes_walk vmi list_head) by done. by rewrite Hstop. }
  destruct (later_passes_return vmi list_head fuel Hhead) as [Hm Hth];
    [by rewrite Hstop|].
  split_and!; try done. apply main_success. by exists vmi.
Qed.

(** The list A -> B -> C -> A of [guest_abc]. *)
Lemma main_completes_on_circular_list_abc :
  exit_status (main (host_of guest_abc) ["vmi_demo"] 3) = Some EXIT_SUCCESS.
Proof.
  refine (proj1 (main_completes_on_circular_list (host_of guest_abc) ["vmi_demo"]
                   guest_abc 0x1188 [0x1188; 0x2188; 0x3188] 3 _ _ _ _ _ _ _)).
  - reflexivity.
  - evaluate.
  - evaluate.
  - evaluate.
  - reflexivity.
  - unfold circular_list. split_and!.
    + reflexivity.
    + apply NoDup_ListNoDup. repeat constructor; simpl; intuition lia.
    + repeat constructor; unfold is_addr; lia.
    + simpl. split_and!; reflexivity.
  - simpl. lia.
Defined.

(** ** C9: the heuristic pointer scan of the thread pass *)

Lemma read_process_Some vmi b p n p0 :
  read_process vmi b p n = Some p0 → eprocess_addr p0 = b.
Proof.
  unfold read_process.
  destruct (vmi_read_32_va vmi _); [|done].
  destruct (vmi_read_str_va vmi _); [|done]. by intros [= <-].
Qed.

(** The analysis of lines 285-320 in terms of the hits of the scan. *)
Lemma thread_analysis_hits vmi p0 total :
  0 ≤ total ≤ 10 →
  thread_analysis vmi p0 total
  = if bool_decide (4 < pid p0 ∧ total < 10)
    then (total + 1,
          EThreadProcess (pid p0) (name p0)
          :: take 3 (scan_hits vmi (eprocess_addr p0))
          ++ [match scan_hits vmi (eprocess_addr p0) with
              | [] => EThreadAccessible
              | hits => EThreadEstimate (Z.of_nat (length hits))
              end])
    else (total, []).
Proof.
  intros Htotal. unfold thread_analysis.
  destruct (bool_decide (4 < pid p0)) eqn:Hpid;
    destruct (bool_decide (total < 10)) eqn:Hlt; cbn [andb];
    try apply bool_decide_eq_true in Hpid; try apply bool_decide_eq_false in Hpid;
    try apply bool_decide_eq_true in Hlt; try apply bool_decide_eq_false in Hlt;
    try (rewrite bool_decide_eq_false_2 by tauto; done).
  rewrite bool_decide_eq_true_2 by done.
  rewrite thread_scan_hits, wrap32_small by lia.
  pose proof (scan_hits_length vmi (eprocess_addr p0)) as Hlen.
  destruct (scan_hits vmi (eprocess_addr p0)) as [|hit hits] eqn:Hhits; [done|].
  rewrite decide_True by (cbn [length]; lia).
  rewrite to_int32_small by (cbn [length] in *; lia). done.
Qed.

Lemma thread_block_total vmi p n b total :
  0 ≤ total ≤ 10 → 0 ≤ (thread_block vmi p n b total).1 ≤ 10.
Proof.
  intros Htotal. unfold thread_block.
  destruct (read_process vmi b p n) as [p0|]; [|done].
  destruct (bool_decide (4 < pid p0 ∧ total < 10)) eqn:Hgate; [|done].
  apply bool_decide_eq_true in Hgate. cbn [fst]. lia.
Qed.

Lemma thread_blocks_total vmi p n nodes :
  ∀ total, 0 ≤ total ≤ 10 → 0 ≤ (thread_blocks vmi p n nodes total).1 ≤ 10.
Proof.
  induction nodes as [|b nodes IH]; intros total Htotal; [done|].
  cbn [thread_blocks fst]. by apply IH, thread_block_total.
Qed.

(** What the thread loop prints is the blocks of the nodes it visits, and
    its counter is their total. *)
Lemma thread_loop_blocks vmi list_head t p n fuel :
  ∀ current total,
  0 ≤ total ≤ 10 →
  thread_blocks vmi p n
    (walk_nodes (thread_loop vmi list_head t p n fuel current total)) total
  = (walk_count (thread_loop vmi list_head t p n fuel current total),
     walk_out (thread_loop vmi list_head t p n fuel current total)).
Proof.
  induction fuel as [|fuel IH]; intros current total Htotal; [done|].
  cbn [thread_loop].
  pose proof (thread_block_total vmi p n (wrap64 (current - t)) total Htotal) as Hnext.
  assert (match read_process vmi (wrap64 (current - t)) p n with
          | Some p0 => thread_analysis vmi p0 total
          | None => (total, [])
          end = thread_block vmi p n (wrap64 (current - t)) total) as ->.
  { unfold thread_block.
    destruct (read_process vmi (wrap64 (current - t)) p n) as [p0|] eqn:Hread; [|done].
    rewrite thread_analysis_hits by done.
    by rewrite (read_process_Some _ _ _ _ _ Hread). }
  destruct (thread_block vmi p n (wrap64 (current - t)) total) as [total' out] eqn:Hblock.
  cbn [fst] in Hnext.
  destruct (vmi_read_addr_va vmi _) as [next|];
    [destruct (decide (next = list_head))|];
    cbn [walk_nodes walk_count walk_out thread_blocks]; rewrite Hblock; cbn [fst snd];
    rewrite ?app_nil_r; try done.
  by rewrite IH.
Qed.

(** The hits of the scan of a node: the kernel pointers found at the
    scanned offsets of that node. *)
Lemma scan_hits_spec vmi b e :
  e ∈ scan_hits vmi b
  ↔ ∃ o ptr, o ∈ scan_offsets
             ∧ vmi_read_addr_va vmi (wrap64 (b + o)) = Some ptr
             ∧ is_kernel_pointer ptr = true
             ∧ e = EThreadPointer o ptr.
Proof.
  unfold scan_hits. rewrite list_elem_of_omap. split.
  - intros (o & Ho & Hhit). apply scan_hit_Some in Hhit as (ptr & ? & ? & ->).
    by exists o, ptr.
  - intros (o & ptr & Ho & Hread & Hptr & ->). exists o. split; [done|].
    unfold scan_hit. by rewrite Hread, Hptr.
Qed.

Lemma scan_hits_ext vmi vmi' b :
  (∀ o, o ∈ scan_offsets →
        vmi_read_addr_va vmi' (wrap64 (b + o)) = vmi_read_addr_va vmi (wrap64 (b + o))) →
  scan_hits vmi' b = scan_hits vmi b.
Proof.
  unfold scan_hits. generalize scan_offsets. intros l.
  induction l as [|o l IH]; intros Hreads; [done|].
  cbn [omap list_omap].
  assert (scan_hit vmi' b o = scan_hit vmi b o) as ->
    by (unfold scan_hit; by rewrite Hreads by left).
  rewrite IH; [done|]. intros o' Ho'. apply Hreads. by right.
Qed.

(** What [enumerate_threads] prints along a chain of link fields. *)
Lemma enumerate_threads_chain vmi list_head links last fuel :
  vmi_read_addr_ksym vmi "PsActiveProcessHead" = Some list_head →
  head links = Some list_head →
  list_head ∉ tail links →
  Forall is_addr links →
  chain vmi links last →
  last = None ∨ last = Some list_head →
  (length links ≤ fuel)%nat →
  enumerate_threads vmi fuel
  = (Some DEMO_SUCCESS,
     thread_header
     ++ (thread_blocks vmi (get_offset_safe vmi "win_pid")
           (get_offset_safe vmi "win_pname")
           ((λ l, wrap64 (l - get_offset_safe vmi "win_tasks")) <$> links) 0).2
     ++ [EThreadsAnalyzed
           (thread_blocks vmi (get_offset_safe vmi "win_pid")
              (get_offset_safe vmi "win_pname")
              ((λ l, wrap64 (l - get_offset_safe vmi "win_tasks")) <$> links) 0).1]).
Proof.
  intros Hhead Hfirst Hnotin Haddr Hchain Hlast Hfuel.
  destruct links as [|l rest]; [done|]. injection Hfirst as ->. simpl in Hnotin.
  destruct (process_loop_chain vmi list_head (get_offset_safe vmi "win_tasks")
              (get_offset_safe vmi "win_pid") (get_offset_safe vmi "win_pname")
              last rest list_head fuel 0 Hchain Hlast Haddr Hnotin Hfuel)
    as [Hstop Hnodes].
  destruct (thread_loop_links vmi list_head (get_offset_safe vmi "win_tasks")
              (get_offset_safe vmi "win_pid") (get_offset_safe vmi "win_pname")
              (get_offset_safe vmi "win_pid") (get_offset_safe vmi "win_pname")
              fuel list_head 0 0) as [Hstop' Hnodes'].
  pose proof (thread_loop_blocks vmi list_head (get_offset_safe vmi "win_tasks")
                (get_offset_safe vmi "win_pid") (get_offset_safe vmi "win_pname")
                fuel list_head 0 ltac:(lia)) as Hblocks.
  pose proof (thread_loop_count vmi list_head (get_offset_safe vmi "win_tasks")
                (get_offset_safe vmi "win_pid") (get_offset_safe vmi "win_pname")
                fuel list_head 0 ltac:(lia)) as [Hrange _].
  rewrite Hnodes', Hnodes in Hblocks. rewrite Hblocks. cbn [fst snd].
  unfold enumerate_threads. rewrite Hhead, Hstop', Hstop.
  destruct last; by rewrite to_int32_small by lia.
Qed.

(** C9: the heuristic scan of the thread pass.  The scanned offsets are
    0x150, 0x158, ... below 0x200.  A scanned word is a hit exactly when
    it is readable and lies strictly between 0xfffff80000000000 and
    0xffffffffffffffff; the hits of a node are such words at the scanned
    offsets of that very node, at most 22, and depend on no other cell of
    the guest.  Along any chain of nodes the pass prints, for each node it
    analyses, the process line, the first three hits of that node and the
    number of its hits, and it analyses a node only while fewer than ten
    have been analysed: the final count is at most 10 however long the
    list is.  The scan cannot make the pass fail: [enumerate_threads]
    returns an error only when the head symbol cannot be read. *)
Theorem thread_scan_bounded_heuristic vmi fuel :
  (∀ o, o ∈ scan_offsets ↔ 0x150 ≤ o < 0x200 ∧ (o - 0x150) mod 8 = 0)
  ∧ (∀ v, is_kernel_pointer v = true ↔ 0xfffff80000000000 < v < 0xffffffffffffffff)
  ∧ (∀ b e,
       e ∈ scan_hits vmi b
       ↔ ∃ o ptr, o ∈ scan_offsets
                  ∧ vmi_read_addr_va vmi (wrap64 (b + o)) = Some ptr
                  ∧ is_kernel_pointer ptr = true
                  ∧ e = EThreadPointer o ptr)
  ∧ (∀ b, (length (scan_hits vmi b) ≤ 22)%nat)
  ∧ (∀ vmi' b,
       (∀ o, o ∈ scan_offsets →
             vmi_read_addr_va vmi' (wrap64 (b + o)) = vmi_read_addr_va vmi (wrap64 (b + o))) →
       scan_hits vmi' b = scan_hits vmi b)
  ∧ (∀ list_head links last,
       vmi_read_addr_ksym vmi "PsActiveProcessHead" = Some list_head →
       head links = Some list_head →
       list_head ∉ tail links →
       Forall is_addr links →
       chain vmi links last →
       last = None ∨ last = Some list_head →
       (length links ≤ fuel)%nat →
       enumerate_threads vmi fuel
       = (Some DEMO_SUCCESS,
          thread_header
          ++ (thread_blocks vmi (get_offset_safe vmi "win_pid")
                (get_offset_safe vmi "win_pname")
                ((λ l, wrap64 (l - get_offset_safe vmi "win_tasks")) <$> links) 0).2
          ++ [EThreadsAnalyzed
                (thread_blocks vmi (get_offset_safe vmi "win_pid")
                   (get_offset_safe vmi "win_pname")
                   ((λ l, wrap64 (l - get_offset_safe vmi "win_tasks")) <$> links) 0).1]))
  ∧ (∀ p n nodes, 0 ≤ (thread_blocks vmi p n nodes 0).1 ≤ 10)
  ∧ (fst (enumerate_threads vmi fuel) = Some DEMO_ERROR_PROCESS
     ↔ vmi_read_addr_ksym vmi "PsActiveProcessHead" = None)
  ∧ (analyzed_count (snd (enumerate_threads vmi fuel)) ≤ 10)%nat.
Proof.
  split_and!.
  - apply scan_offsets_spec.
  - apply is_kernel_pointer_spec.
  - apply scan_hits_spec.
  - apply scan_hits_length.
  - intros vmi' b. apply scan_hits_ext.
  - intros list_head links last. apply enumerate_threads_chain.
  - intros p n nodes. apply thread_blocks_total. lia.
  - apply enumerate_threads_error.
  - apply enumerate_threads_analyzed.
Qed.

(** On [guest_pointers], one node whose scanned words are kernel pointers
    except the link field: the pass prints the process line, the first
    three hits (offsets 0x150, 0x158, 0x160) and the estimate 21. *)
Lemma thread_scan_bounded_heuristic_pointers :
  enumerate_threads guest_pointers 3
  = (Some DEMO_SUCCESS,
     thread_header
     ++ [EThreadProcess 300 "svchost.exe";
         EThreadPointer 0x150 0xfffff80000001150;
         EThreadPointer 0x158 0xfffff80000001158;
         EThreadPointer 0x160 0xfffff80000001160;
         EThreadEstimate 21; EThreadsAnalyzed 1]).
Proof.
  destruct (thread_scan_bounded_heuristic guest_pointers 3)
    as (_ & _ & _ & _ & _ & Hchain & _).
  refine (eq_trans (Hchain 0x1188 [0x1188] (Some 0x1188) _ _ _ _ _ _ _) _).
  - reflexivity.
  - reflexivity.
  - simpl. apply not_elem_of_nil.
  - repeat constructor; unfold is_addr; lia.
  - reflexivity.
  - by right.
  - simpl. lia.
  - vm_compute. reflexivity.
Defined.
